(** * IP checker: the normalizer, the history writer and the scheduler loop

    A shallow embedding of [project3.v2.py] (the advanced IP checking
    utility) and the properties its specification states about it.

    Layout:
    - [Py]        the fragment of Python the program relies on: JSON values as
                  [json.load] and [Response.json] build them, truthiness, the
                  [or] and [in] operators on them, exceptions and their classes;
    - [Normalizer] [normalize_data] and the manual override of [main];
    - [History]   [append_history_csv] over a file store, with the clock and
                  [datetime.isoformat];
    - [Scheduler] the data sources, one check cycle and the [while] loop of
                  [main];
    - the theorems, one block per component. *)

From Stdlib Require Import ZArith String Ascii List Bool Lia.
From Stdlib Require Import Floats.SpecFloat.
From stdpp Require Import gmap strings list fin_maps.
From Equations Require Import Equations.

Local Open Scope Z_scope.
Local Open Scope string_scope.
Local Open Scope list_scope.

(* ===================================================================== *)
(** ** Python values and operators                                        *)
(* ===================================================================== *)

Module Py.

(** What [json.load] and [Response.json] return: [None], [bool], [int]
    (unbounded), [float] (the parser also accepts [NaN] and [Infinity]),
    [str], [list] and [dict] with string keys. Strings are kept as their
    UTF-8 bytes. A Python string can also hold a lone surrogate, a code point
    from U+D800 to U+DFFF: the JSON parser builds one from an escape such as
    [\ud800], and the command line gives U+DC80 to U+DCFF for the bytes of an
    argument that are not UTF-8. Such a code point is kept as the three bytes
    [ED], [A0..BF], [80..BF] of its generalized UTF-8 form, which no UTF-8
    text holds. *)
#[local] Unset Elimination Schemes.
Inductive json : Type :=
| JNull
| JBool (b : bool)
| JInt (z : Z)
| JFloat (f : spec_float)
| JStr (s : string)
| JList (l : list json)
| JObj (m : gmap string json).
#[local] Set Elimination Schemes.

(** The exceptions the program can meet, by the class of the raised object. *)
Inductive exn : Type :=
| InvalidURL               (* requests.get: a URL it refuses *)
| ConnectionError          (* requests.get: transport failure or timeout *)
| HTTPError                (* Response.raise_for_status *)
| ResponseJSONDecodeError  (* Response.json on a body that is not JSON *)
| FileNotFoundError        (* open: no such file, or no such directory for it *)
| IsADirectoryError        (* open on a directory *)
| NotADirectoryError       (* open below something that is not a directory *)
| PermissionError          (* open without the right to *)
| OSError                  (* open: any other refusal of the system *)
| JSONDecodeError          (* json.load on text that is not JSON *)
| UnicodeDecodeError       (* reading bytes that are not UTF-8 *)
| UnicodeEncodeError       (* writing a lone surrogate *)
| ValueError               (* an integer of too many digits; a timeout that is not positive *)
| RecursionError           (* json.load on nesting that is too deep *)
| TypeError
| AttributeError.

(** The classes named by the [except] clauses of [main]. *)
Inductive exn_class : Type :=
| CRequestException
| CFileNotFoundError
| CJSONDecodeError
| CException.

(** Modelled from the spec: the class hierarchy of the [requests] library,
    which is not part of the sources. The spec has a decode error of the live
    source recoverable and one of the mock source fatal; this is the hierarchy
    of requests 2.27 and later, where [requests.exceptions.JSONDecodeError]
    derives from both [RequestException] and [json.JSONDecodeError]. The
    built-in classes are Python's. *)
Definition isinstance (e : exn) (c : exn_class) : bool :=
  match c, e with
  | CException, _ => true
  | CRequestException,
    (InvalidURL | ConnectionError | HTTPError | ResponseJSONDecodeError) => true
  | CFileNotFoundError, FileNotFoundError => true
  | CJSONDecodeError, (JSONDecodeError | ResponseJSONDecodeError) => true
  | _, _ => false
  end.

(** A computation that returns or raises. *)
Inductive result (A : Type) : Type :=
| Ok (a : A)
| Raise (e : exn).
Arguments Ok {A} a.
Arguments Raise {A} e.

Definition bind {A B} (r : result A) (k : A -> result B) : result B :=
  match r with
  | Ok a => k a
  | Raise e => Raise e
  end.

(** [bool(v)]: [None], [False], zero, and the empty string, list and dict are
    false; everything else, [NaN] included, is true. *)
Definition truthy (v : json) : bool :=
  match v with
  | JNull => false
  | JBool b => b
  | JInt z => negb (Z.eqb z 0)
  | JFloat (S754_zero _) => false
  | JFloat _ => true
  | JStr s => negb (String.eqb s "")
  | JList l => match l with [] => false | _ :: _ => true end
  | JObj m => negb (bool_decide (m = ∅))
  end.

(** [a or b], both operands already evaluated (the operands used by the
    program are [dict.get] calls, which neither raise nor have effects). *)
Definition py_or (a b : json) : json := if truthy a then a else b.

(** [d.get(k)] on a dict: the value, [None] when the key is missing. *)
Definition py_get (d : gmap string json) (k : string) : json :=
  default JNull (d !! k).

(** [p] is a prefix of [s]. *)
Fixpoint str_prefix (p s : string) : bool :=
  match p, s with
  | EmptyString, _ => true
  | String a p', String b s' => Ascii.eqb a b && str_prefix p' s'
  | String _ _, EmptyString => false
  end.

(** [sub in s] for two strings: [sub] occurs in [s]. On UTF-8 bytes this
    agrees with the search on code points for an ASCII [sub]: no byte of a
    multi-byte sequence is below 128. *)
Fixpoint str_contains (sub s : string) : bool :=
  str_prefix sub s ||
  match s with
  | EmptyString => false
  | String _ s' => str_contains sub s'
  end.

(** [x == v] for a string [x]: only an equal string is equal to it. *)
Definition str_eq_json (x : string) (v : json) : bool :=
  match v with
  | JStr t => String.eqb x t
  | _ => false
  end.

(** [x in v] for a string [x]: substring search in a string, membership in a
    list, key lookup in a dict; any other right operand is not iterable. *)
Definition py_in (x : string) (v : json) : result bool :=
  match v with
  | JStr s => Ok (str_contains x s)
  | JList l => Ok (existsb (str_eq_json x) l)
  | JObj m => Ok (bool_decide (is_Some (m !! x)))
  | JNull | JBool _ | JInt _ | JFloat _ => Raise TypeError
  end.

(** How a text stream treats what its encoding cannot write: [strict], the
    default of [open] and of a console; [surrogateescape], which a console
    has under the C locale; and the handlers that never fail, such as
    [replace] and [backslashreplace]. *)
Inductive error_handler : Type :=
| Strict
| SurrogateEscape
| Lenient.

(** The bytes [a], [b] start a lone surrogate. *)
Definition surrogate_lead (a b : ascii) : bool :=
  Nat.eqb (nat_of_ascii a) 237 &&
  Nat.leb 160 (nat_of_ascii b) && Nat.leb (nat_of_ascii b) 191.

(** The second byte of U+DC80 to U+DCFF, the surrogates that
    [surrogateescape] writes back as the bytes they stand for. *)
Definition escaped_byte (b : ascii) : bool :=
  Nat.leb 178 (nat_of_ascii b) && Nat.leb (nat_of_ascii b) 179.

Definition tolerates (h : error_handler) (b : ascii) : bool :=
  match h with
  | Strict => false
  | SurrogateEscape => escaped_byte b
  | Lenient => true
  end.

(** No byte of [s] is [ED], the first byte of every lone surrogate. *)
Fixpoint plain (s : string) : bool :=
  match s with
  | EmptyString => true
  | String a rest => negb (Nat.eqb (nat_of_ascii a) 237) && plain rest
  end.

(** A UTF-8 stream with the handler [h] takes the text [s]: every lone
    surrogate of [s] is one the handler deals with. Otherwise the write
    raises [UnicodeEncodeError] and nothing of [s] is written. *)
Fixpoint encodes (h : error_handler) (s : string) : bool :=
  match s with
  | String a (String b _ as rest) =>
      (negb (surrogate_lead a b) || tolerates h b) && encodes h rest
  | _ => true
  end.

(** The same for [str(v)], the text that [print], an f-string and the [csv]
    writer make of a value: a string is its own text; the text of [None], of
    a boolean and of a number is ASCII; that of a list or a dict is built
    from the [repr] of its parts, in which a lone surrogate is escaped. *)
Definition text_encodes (h : error_handler) (v : json) : bool :=
  match v with
  | JStr s => encodes h s
  | _ => true
  end.

End Py.

Import Py.

Notation "'let!' x ':=' r 'in' k" := (bind r (fun x => k))
  (at level 10, x name, r at level 100, k at level 200).

(* ===================================================================== *)
(** ** The normalizer                                                     *)
(* ===================================================================== *)

Module Normalizer.

(** ["IPv6" if ip and ":" in ip else "IPv4"]. [ip and e] is [ip] itself when
    [ip] is false, and [e] otherwise. *)
Definition ip_version (ip : json) : result json :=
  let! c := (if truthy ip then py_in ":" ip else Ok false) in
  Ok (JStr (if c then "IPv6" else "IPv4")).

(** [normalize_data(data)] for a dict [data]. *)
Definition normalize_data (data : gmap string json) : result (gmap string json) :=
  let normalized : gmap string json := ∅ in
  let ip := py_or (py_or (py_get data "ip") (py_get data "query")) (py_get data "ip_address") in
  let normalized := <["ip" := ip]> normalized in
  let! version := ip_version ip in
  let normalized := <["version" := version]> normalized in
  let normalized := <["city" := py_get data "city"]> normalized in
  let normalized :=
    <["region" := py_or (py_get data "region") (py_get data "region_name")]> normalized in
  let normalized :=
    <["country" := py_or (py_get data "country_name") (py_get data "country")]> normalized in
  let normalized :=
    <["country_code" := py_or (py_get data "country") (py_get data "country_code")]> normalized in
  let normalized :=
    <["latitude" := py_or (py_get data "latitude") (py_get data "lat")]> normalized in
  let normalized :=
    <["longitude" :=
        py_or (py_or (py_get data "longitude") (py_get data "lon")) (py_get data "lng")]>
      normalized in
  let normalized := <["timezone" := py_get data "timezone"]> normalized in
  let normalized := <["isp" := py_or (py_get data "org") (py_get data "isp")]> normalized in
  let normalized := <["asn" := py_or (py_get data "asn") (py_get data "as")]> normalized in
  let normalized := <["org" := py_get data "org"]> normalized in
  Ok normalized.

(** [normalize_data(data_raw)] for whatever the data source returned: only a
    dict has [get]; on any other value the first [data.get] raises. *)
Definition normalize_raw (data_raw : json) : result (gmap string json) :=
  match data_raw with
  | JObj data => normalize_data data
  | _ => Raise AttributeError
  end.

(** The override in [main]:
    [if args.manual_ip: data["ip"] = ...; data["version"] = ...]. *)
Definition apply_manual_ip (manual_ip : option string) (data : gmap string json)
  : gmap string json :=
  match manual_ip with
  | Some s =>
      if negb (String.eqb s "") then
        let data := <["ip" := JStr s]> data in
        <["version" := JStr (if str_contains ":" s then "IPv6" else "IPv4")]> data
      else data
  | None => data
  end.

(** The value bound to the local [ip] of [normalize_data]. *)
Definition resolved_ip (data : gmap string json) : json :=
  py_or (py_or (py_get data "ip") (py_get data "query")) (py_get data "ip_address").

(** The twelve canonical field names. *)
Definition canonical_keys : gset string :=
  {[ "ip"; "version"; "city"; "region"; "country"; "country_code";
     "latitude"; "longitude"; "timezone"; "isp"; "asn"; "org" ]}.

(** The candidate table of the spec (section 4.2), in its order: each
    canonical field with the raw keys it is taken from, left to right. *)
Definition candidate_table : list (string * list string) :=
  [ ("ip", ["ip"; "query"; "ip_address"]);
    ("city", ["city"]);
    ("region", ["region"; "region_name"]);
    ("country", ["country_name"; "country"]);
    ("country_code", ["country"; "country_code"]);
    ("latitude", ["latitude"; "lat"]);
    ("longitude", ["longitude"; "lon"; "lng"]);
    ("timezone", ["timezone"]);
    ("isp", ["org"; "isp"]);
    ("asn", ["asn"; "as"]);
    ("org", ["org"]) ].

Definition is_null (v : json) : bool :=
  match v with JNull => true | _ => false end.

(** The rule as the spec words it: the first candidate whose value is not
    null, null when there is none. *)
Fixpoint first_non_null (data : gmap string json) (keys : list string) : json :=
  match keys with
  | [] => JNull
  | k :: ks => if is_null (py_get data k) then first_non_null data ks else py_get data k
  end.

(** The first candidate whose value is true in Python's sense, if any. *)
Fixpoint first_truthy (data : gmap string json) (keys : list string) : option json :=
  match keys with
  | [] => None
  | k :: ks => if truthy (py_get data k) then Some (py_get data k) else first_truthy data ks
  end.

(** What a chain [data.get(k1) or data.get(k2) or ...] evaluates to. *)
Fixpoint or_chain (data : gmap string json) (keys : list string) : json :=
  match keys with
  | [] => JNull
  | [k] => py_get data k
  | k :: ks => if truthy (py_get data k) then py_get data k else or_chain data ks
  end.

(** The values [":" in ip] can be evaluated on without a [TypeError], and the
    false values on which it is not evaluated at all. *)
Definition ip_checkable (ip : json) : bool :=
  negb (truthy ip) ||
  match ip with
  | JStr _ | JList _ | JObj _ => true
  | _ => false
  end.

(** A field of the record a call returned; nothing when the call raised. *)
Definition field_of (r : result (gmap string json)) (f : string) : option json :=
  match r with
  | Ok n => n !! f
  | Raise _ => None
  end.

(** "No version value": the key is missing or holds null. *)
Definition version_absent (n : gmap string json) : Prop :=
  n !! "version" = None \/ n !! "version" = Some JNull.

End Normalizer.

Import Normalizer.


(* ===================================================================== *)
(** ** The history writer                                                 *)
(* ===================================================================== *)

Module History.

(** A [datetime] value, as [datetime.utcnow()] returns it. The class keeps
    [1 <= year <= 9999], [month <= 12], [day <= 31], [hour < 24],
    [minute < 60], [second < 60] and [microsecond < 1000000]. *)
Record datetime : Type := {
  year : nat;
  month : nat;
  day : nat;
  hour : nat;
  minute : nat;
  second : nat;
  microsecond : nat
}.

Definition digit (n : nat) : ascii := ascii_of_nat (48 + n mod 10).

(** The [w] low-order decimal digits of [n], most significant first: the
    ["%0wd"] of a number below [10^w]. *)
Fixpoint zpad (w n : nat) : string :=
  match w with
  | O => ""
  | S w' => zpad w' (n / 10) +:+ String (digit n) ""
  end.

(** [datetime.isoformat()]: [YYYY-MM-DDTHH:MM:SS], followed by [.ffffff]
    when the microsecond is not zero. *)
Definition isoformat (t : datetime) : string :=
  zpad 4 (year t) +:+ "-" +:+ zpad 2 (month t) +:+ "-" +:+ zpad 2 (day t) +:+ "T" +:+
  zpad 2 (hour t) +:+ ":" +:+ zpad 2 (minute t) +:+ ":" +:+ zpad 2 (second t) +:+
  (if Nat.eqb (microsecond t) 0 then "" else "." +:+ zpad 6 (microsecond t)).

(** A row of a CSV file is kept as the values handed to the [csv] writer,
    one per column, in order. How the writer quotes a cell and prints a
    number is its own business; it writes [None] as an empty cell. *)
Abbreviation csv_row := (list json).

(** Why a path cannot be opened. *)
Inductive open_error : Type :=
| NoSuchDirectory   (* the directory of the path does not exist *)
| IsDirectory       (* the path is a directory *)
| NotDirectory      (* a part of the path is a file, not a directory *)
| NotPermitted      (* the file or its directory is protected *)
| Refused.          (* anything else the system refuses, such as a name too long *)

Definition exn_of_open_error (err : open_error) : exn :=
  match err with
  | NoSuchDirectory => FileNotFoundError
  | IsDirectory => IsADirectoryError
  | NotDirectory => NotADirectoryError
  | NotPermitted => PermissionError
  | Refused => OSError
  end.

(** What the file store holds at a path:
    - a regular file made of complete rows, each one ended by its line end;
      everything [append_history_csv] writes is of this kind;
    - a regular file the rows of which are not kept: one whose text does not
      end with a line end, so that what is appended continues its last line,
      or that is not CSV at all;
    - something that makes [open(path, "a")] fail. *)
Inductive node : Type :=
| Rows (rows : list csv_row)
| Untracked
| Unopenable (err : open_error).

(** The file store. A path without a node holds nothing, and the file can be
    created there. *)
Abbreviation store := (gmap string node).

(** [os.path.isfile(path)]. *)
Definition isfile (fs : store) (path : string) : bool :=
  match fs !! path with
  | Some (Rows _) | Some Untracked => true
  | _ => false
  end.

(** [open(path, "a")]: the file as it is so far, empty when the call
    creates it. *)
Definition open_append (fs : store) (path : string) : result node :=
  match fs !! path with
  | Some (Unopenable err) => Raise (exn_of_open_error err)
  | Some csvfile => Ok csvfile
  | None => Ok (Rows [])
  end.

(** [DictWriter.writeheader]: the field names as a row. *)
Definition writeheader (fieldnames : list string) : csv_row :=
  map JStr fieldnames.

(** [DictWriter.writerow]: [rowdict.get(key, "")] for each field name. *)
Definition writerow (fieldnames : list string) (rowdict : gmap string json) : csv_row :=
  map (fun key => default (JStr "") (rowdict !! key)) fieldnames.

(** The [csvfile.write] that ends [writeheader] and [writerow]: the writer
    hands the line of a row to the file in one piece, and the file, opened
    with [encoding="utf-8"], encodes it then. A row with a lone surrogate in
    one of its cells raises and leaves the file as it was. *)
Definition write (csvfile : node) (r : csv_row) : result node :=
  if forallb (text_encodes Strict) r then
    Ok match csvfile with
       | Rows rows => Rows (rows ++ [r])
       | other => other
       end
  else Raise UnicodeEncodeError.

(** [append_history_csv(path, fields, data)], with the value [now] that
    [datetime.utcnow()] returns during the call: the file store it leaves
    and the exception it raised, if any. What was written before an
    exception reaches the file when the [with] block closes it, and a file
    that [open] created stays. *)
Definition append_history_csv (now : datetime) (path : string) (fields : list string)
    (data : gmap string json) (fs : store) : store * option exn :=
  let file_exists := isfile fs path in
  match open_append fs path with
  | Raise x => (fs, Some x)
  | Ok csvfile =>
      let fieldnames := "timestamp" :: fields in
      match (if negb file_exists then write csvfile (writeheader fieldnames)
             else Ok csvfile) with
      | Raise x => (<[path := csvfile]> fs, Some x)
      | Ok csvfile =>
          let row : gmap string json := {[ "timestamp" := JStr (isoformat now +:+ "Z") ]} in
          let row := fold_left (fun row f => <[f := py_get data f]> row) fields row in
          match write csvfile (writerow fieldnames row) with
          | Raise x => (<[path := csvfile]> fs, Some x)
          | Ok csvfile => (<[path := csvfile]> fs, None)
          end
      end
  end.

(** The data row of a call: the timestamp column, then one column per
    selected field. A field that is itself named "timestamp" takes the
    timestamp column over. *)
Definition data_row (now : datetime) (fields : list string) (data : gmap string json)
  : csv_row :=
  (if decide ("timestamp" ∈ fields) then py_get data "timestamp"
   else JStr (isoformat now +:+ "Z")) :: map (py_get data) fields.

(** The rows of the file at a path, when it is a file of complete rows. *)
Definition rows_at (fs : store) (path : string) : option (list csv_row) :=
  match fs !! path with
  | Some (Rows rows) => Some rows
  | _ => None
  end.

(** The path can be opened for appending. *)
Definition writable (fs : store) (path : string) : bool :=
  match fs !! path with
  | Some (Unopenable _) => false
  | _ => true
  end.

(** The path holds complete rows, or nothing yet. *)
Definition tracked (fs : store) (path : string) : bool :=
  match fs !! path with
  | Some (Rows _) | None => true
  | _ => false
  end.

(** The field names and the values of [data] that a call writes can all be
    encoded: none holds a lone surrogate. *)
Definition header_encodes (fields : list string) : bool :=
  forallb (encodes Strict) fields.

Definition record_encodes (fields : list string) (data : gmap string json) : bool :=
  forallb (fun f => text_encodes Strict (py_get data f)) fields.

(** The timestamp column of a row is its first one. *)
Definition timestamp_column (r : csv_row) : option json := head r.

End History.

Import History.

(* ===================================================================== *)
(** ** The data sources and the scheduler loop                            *)
(* ===================================================================== *)

Module Scheduler.

(** The parsed command line. An option that was not given is [None]. *)
Record args : Type := {
  mock : option string;
  manual_ip : option string;
  interval : Z;
  count : Z;
  save_history : option string;
  api_url : string;
  timeout : Z;
  no_print_time : bool
}.

(** [if args.x:] for an optional string: given and not empty. *)
Definition given (o : option string) : bool :=
  match o with
  | Some s => negb (String.eqb s "")
  | None => false
  end.

(** What one HTTP GET that is sent meets. *)
Inductive http_outcome : Type :=
| HttpFailure                                   (* no connection, timeout *)
| HttpResponse (status : Z) (body : option json). (* body: [None] when it is not JSON *)

(** What opening, reading and parsing the mock file meets. *)
Inductive mock_outcome : Type :=
| MockMissing                      (* no such file: [open] raises [FileNotFoundError] *)
| MockUnopenable (err : open_error) (* [open] fails for another reason *)
| MockNotUtf8                      (* bytes that are not UTF-8: [UnicodeDecodeError] *)
| MockInvalid                      (* text the parser rejects: [json.JSONDecodeError] *)
| MockHugeNumber                   (* an integer of more than 4300 digits: [ValueError] *)
| MockTooDeep                      (* nesting beyond the recursion limit: [RecursionError] *)
| MockJson (j : json).

(** The world outside the program. What a data source meets is asked once
    per check cycle: the cycle is identified by the value of [run_count]
    when it starts. The console is a UTF-8 stream, as the check marks of the
    messages need, with the error handler it was opened with. *)
Record env : Type := {
  url_accepted : string -> bool;                 (* [requests] takes the URL *)
  http_get : string -> Z -> Z -> http_outcome;   (* url, timeout, cycle *)
  read_mock : string -> Z -> mock_outcome;       (* path, cycle *)
  utcnow : Z -> datetime;                        (* cycle *)
  stdout_errors : error_handler;                 (* [sys.stdout.errors] *)
  sleep_max : Z                                  (* the longest [time.sleep] the platform takes *)
}.

(** The messages of the four [except] clauses. *)
Inductive error_message : Type :=
| NetworkApiError
| MockFileNotFound
| InvalidJson
| UnexpectedError.

(** What the program does that can be observed: its calls to the data
    sources, its console output and its sleeps. *)
Inductive event : Type :=
| PrintRunning (k total : Z)
| LoadMock (path : string)
| FetchLive (url : string) (secs : Z)
| PrintSelected (lines : list (string * json))
| PrintInterrupted (lines : list (string * json))
| PrintAppended (path : string)
| PrintError (m : error_message)
| Sleep (secs : Z).

Definition FIELD_LABELS : list (string * string) :=
  [ ("ip", "Public IP Address");
    ("version", "IP Version");
    ("city", "City");
    ("region", "Region");
    ("country", "Country");
    ("country_code", "Country Code");
    ("latitude", "Latitude");
    ("longitude", "Longitude");
    ("timezone", "Timezone");
    ("isp", "ISP / Provider");
    ("asn", "ASN");
    ("org", "Organization") ].

(** [FIELD_LABELS.get(f, f)]. *)
Fixpoint label_of (table : list (string * string)) (f : string) : string :=
  match table with
  | [] => f
  | (k, l) :: rest => if String.eqb k f then l else label_of rest f
  end.

(** [print_selected(data, fields)]: one label and one value per line, in the
    order of [fields], "N/A" for a value that is [None]. The banner lines and
    the column alignment are layout only. *)
Definition print_selected (data : gmap string json) (fields : list string)
  : list (string * json) :=
  map (fun f => (label_of FIELD_LABELS f,
                 if is_null (py_get data f) then JStr "N/A" else py_get data f))
      fields.

(** How a run of the loop ended: by its counter, by the [break] of an
    [except] clause, or by the exception of a [time.sleep] that nothing
    catches. *)
Inductive exit_state : Type :=
| Done
| Aborted
| Crashed.

Record run : Type := {
  trace : list event;
  files : store;
  runs : Z;
  state : exit_state
}.

(** How [main] ends. *)
Inductive main_result : Type :=
| NoFields
| Finished (r : run).

(** The exit status: 1 from [sys.exit(1)] and from an exception that
    reaches the top, 0 otherwise. *)
Definition exit_code (m : main_result) : Z :=
  match m with
  | NoFields => 1
  | Finished r =>
      match state r with
      | Crashed => 1
      | _ => 0
      end
  end.

(** What the handler of a cycle decides. *)
Inductive verdict : Type :=
| Continue
| Break.

Section Loop.

Variable a : args.
Variable e : env.
Variable fields : list string.

(** [fetch_live(api_url, timeout)] in cycle [i]. [requests.get] refuses a
    bad URL first, then a timeout that is not positive, and sends the request
    after that. [raise_for_status] raises on the statuses from 400 to 599. *)
Definition fetch_live (i : Z) (url : string) (secs : Z) : result json :=
  if negb (url_accepted e url) then Raise InvalidURL
  else if (secs <=? 0)%Z then Raise ValueError
  else
    match http_get e url secs i with
    | HttpFailure => Raise ConnectionError
    | HttpResponse status body =>
        if (400 <=? status)%Z && (status <? 600)%Z then Raise HTTPError
        else match body with
             | Some j => Ok j
             | None => Raise ResponseJSONDecodeError
             end
    end.

(** [load_mock(path)] in cycle [i]. *)
Definition load_mock (i : Z) (path : string) : result json :=
  match read_mock e path i with
  | MockMissing => Raise FileNotFoundError
  | MockUnopenable err => Raise (exn_of_open_error err)
  | MockNotUtf8 => Raise UnicodeDecodeError
  | MockInvalid => Raise JSONDecodeError
  | MockHugeNumber => Raise ValueError
  | MockTooDeep => Raise RecursionError
  | MockJson j => Ok j
  end.

(** The call to the data source of a cycle, with the event that records it. *)
Definition source_call (i : Z) : event * result json :=
  if given (mock a)
  then (LoadMock (default "" (mock a)), load_mock i (default "" (mock a)))
  else (FetchLive (api_url a) (timeout a), fetch_live i (api_url a) (timeout a)).

(** [if not args.no_print_time: print(... Running check (k/total))]. *)
Definition announce (run_count : Z) : list event :=
  if negb (no_print_time a) then [PrintRunning (run_count + 1) (count a)] else [].

(** The console takes a line of [print_selected]: its label and the text
    of its value. *)
Definition line_prints (l : string * json) : bool :=
  encodes (stdout_errors e) (fst l) && text_encodes (stdout_errors e) (snd l).

(** The lines that are printed before the first one the console refuses. *)
Fixpoint printed (lines : list (string * json)) : list (string * json) :=
  match lines with
  | [] => []
  | l :: rest => if line_prints l then l :: printed rest else []
  end.

(** The call [print_selected(data, fields)]: the lines, or the lines that
    got out before a [print] raised. *)
Definition show (data : gmap string json) : event * option exn :=
  let lines := print_selected data fields in
  if forallb line_prints lines then (PrintSelected lines, None)
  else (PrintInterrupted (printed lines), Some UnicodeEncodeError).

(** The body of the [try] in cycle [run_count]: what it printed and called,
    the file store it leaves, and the exception that ended it, if any. *)
Definition try_body (run_count : Z) (fs : store) : list event * store * option exn :=
  let out := announce run_count in
  let out := out ++ [fst (source_call run_count)] in
  match snd (source_call run_count) with
  | Raise x => (out, fs, Some x)
  | Ok data_raw =>
      match normalize_raw data_raw with
      | Raise x => (out, fs, Some x)
      | Ok data =>
          let data := apply_manual_ip (manual_ip a) data in
          let out := out ++ [fst (show data)] in
          match snd (show data) with
          | Some x => (out, fs, Some x)
          | None =>
              if given (save_history a) then
                let path := default "" (save_history a) in
                match append_history_csv (utcnow e run_count) path fields data fs with
                | (fs', Some x) => (out, fs', Some x)
                | (fs', None) =>
                    if encodes (stdout_errors e) path
                    then (out ++ [PrintAppended path], fs', None)
                    else (out, fs', Some UnicodeEncodeError)
                end
              else (out, fs, None)
          end
      end
  end.

(** The [except] clauses, tried in their order. What they print is the
    message and the text of the exception, which holds no lone surrogate: a
    file name appears in it as its [repr], a URL in its quoted form. *)
Definition handler (x : exn) : event * verdict :=
  if isinstance x CRequestException then (PrintError NetworkApiError, Continue)
  else if isinstance x CFileNotFoundError then (PrintError MockFileNotFound, Break)
  else if isinstance x CJSONDecodeError then (PrintError InvalidJson, Break)
  else (PrintError UnexpectedError, Continue).

(** One check cycle: the [try] statement with its handlers. *)
Definition cycle (run_count : Z) (fs : store) : list event * store * verdict :=
  match try_body run_count fs with
  | (out, fs', None) => (out, fs', Continue)
  | (out, fs', Some x) => (out ++ [fst (handler x)], fs', snd (handler x))
  end.

(** The history file is not in a directory that does not exist. *)
Definition history_reachable (fs : store) : Prop :=
  given (save_history a) = true ->
  fs !! default "" (save_history a) <> Some (Unopenable NoSuchDirectory).

(** The seconds of the [time.sleep] between two cycles. *)
Definition pause_secs : Z :=
  if (0 <? interval a)%Z then interval a else 1.

(** The call [time.sleep] between two cycles. *)
Definition pause : event := Sleep pause_secs.

(** [time.sleep] takes the duration. One that is too long for the clock of
    the platform raises [OverflowError] or [OSError]; the call is outside the
    [try], so the exception ends the program. *)
Definition pause_returns : bool := (pause_secs <=? sleep_max e)%Z.

Definition prepend (out : list event) (r : run) : run :=
  {| trace := out ++ trace r; files := files r; runs := runs r; state := state r |}.

(** The [while run_count < args.count] loop of [main], entered with the given
    [run_count] and file store. *)
Equations? loop (run_count : Z) (fs : store) : run
  by wf (Z.to_nat (count a - run_count)) lt :=
  loop run_count fs with Z_lt_dec run_count (count a) => {
    | right _ := {| trace := []; files := fs; runs := run_count; state := Done |};
    | left _ :=
        match cycle run_count fs with
        | (out, fs', Break) =>
            {| trace := out; files := fs'; runs := run_count; state := Aborted |}
        | (out, fs', Continue) =>
            if (run_count + 1 >=? count a)%Z
            then {| trace := out; files := fs'; runs := run_count + 1; state := Done |}
            else if pause_returns
            then prepend (out ++ [pause]) (loop (run_count + 1) fs')
            else {| trace := out ++ [pause]; files := fs'; runs := run_count + 1;
                    state := Crashed |}
        end }.
Proof. lia. Qed.

(** The loop as [main] starts it: [run_count = 0]. *)
Definition scheduler_loop (fs : store) : run := loop 0 fs.

(** [main], from the parsed field list on: without any field it prints a
    message and exits with status 1; otherwise it runs the loop and, unless
    the loop was ended by an exception, prints "Done." and ends with
    status 0. *)
Definition main (fs : store) : main_result :=
  match fields with
  | [] => NoFields
  | _ :: _ => Finished (scheduler_loop fs)
  end.

End Loop.

(** The calls to a data source in a trace. *)
Definition is_fetch (ev : event) : bool :=
  match ev with
  | LoadMock _ | FetchLive _ _ => true
  | _ => false
  end.

Definition is_present (ev : event) : bool :=
  match ev with
  | PrintSelected _ => true
  | _ => false
  end.

Definition is_persist (ev : event) : bool :=
  match ev with
  | PrintAppended _ => true
  | _ => false
  end.

Definition is_sleep (ev : event) : bool :=
  match ev with
  | Sleep _ => true
  | _ => false
  end.

Definition occurrences (p : event -> bool) (tr : list event) : nat :=
  length (filter (fun ev => p ev = true) tr).

End Scheduler.

Import Scheduler.

(* ===================================================================== *)
(** ** Sample inputs                                                      *)
(* ===================================================================== *)

Module Samples.

Definition t0 : datetime :=
  {| year := 2024; month := 1; day := 5; hour := 3; minute := 4; second := 59;
     microsecond := 0 |}.

Definition t1 : datetime :=
  {| year := 2024; month := 1; day := 5; hour := 3; minute := 5; second := 0;
     microsecond := 250 |}.

(** A record without any ip candidate. *)
Definition no_ip : gmap string json := <["city" := JStr "Paris"]> ∅.

(** A record of a provider that names the address [query]. *)
Definition v6_query : gmap string json := <["query" := JStr "2001:db8::1"]> ∅.

(** A record with an address and a city only. *)
Definition ip_city : gmap string json :=
  <["ip" := JStr "1.2.3.4"]> (<["city" := JStr "X"]> ∅).

(** A record of a provider that names the coordinates [lat] and [lon]. *)
Definition lat_lon : gmap string json :=
  <["ip" := JStr "1.2.3.4"]> (<["lat" := JInt 7]> (<["lon" := JInt 9]> ∅)).

(** A record on the equator that carries both names of the latitude. *)
Definition zero_latitude : gmap string json :=
  <["latitude" := JInt 0]> (<["lat" := JInt 7]> ∅).

(** A record of a provider that gives [org] and a two-letter [country]. *)
Definition org_and_country : gmap string json :=
  <["org" := JStr "ACME"]> (<["country" := JStr "FR"]> (<["isp" := JStr "Other"]> ∅)).

(** A record whose only ip candidate is a number. *)
Definition numeric_query : gmap string json := <["query" := JInt 12345]> ∅.

(** The history file after two calls, a minute apart, on a given store. *)
Definition appended_twice (fs : store) : option (list csv_row) :=
  match append_history_csv t0 "h.csv" ["ip"; "city"] ip_city fs with
  | (fs1, None) =>
      match append_history_csv t1 "h.csv" ["ip"; "city"] ip_city fs1 with
      | (fs2, None) => rows_at fs2 "h.csv"
      | (_, Some _) => None
      end
  | (_, Some _) => None
  end.

(** A reply of the default endpoint. *)
Definition reply : json := JObj ip_city.

(** Three runs without interval, live, with a history file. *)
Definition three_runs : args :=
  {| mock := None; manual_ip := None; interval := 0; count := 3;
     save_history := Some "h.csv"; api_url := "https://ipapi.co/json/";
     timeout := 10; no_print_time := false |}.

(** The same, with the history file in a directory [logs]. *)
Definition three_runs_logs : args :=
  {| mock := None; manual_ip := None; interval := 0; count := 3;
     save_history := Some "logs/h.csv"; api_url := "https://ipapi.co/json/";
     timeout := 10; no_print_time := false |}.

(** A file store in which the directory [logs] does not exist. *)
Definition no_logs_directory : store := {[ "logs/h.csv" := Unopenable NoSuchDirectory ]}.

(** A file store with a history file written for another field list. *)
Definition stale_history : store :=
  {[ "old.csv" := Rows [[JStr "timestamp"; JStr "isp"]] ]}.

(** Five runs from a mock file. *)
Definition five_mock_runs : args :=
  {| mock := Some "sample_mock.json"; manual_ip := None; interval := 60; count := 5;
     save_history := None; api_url := "https://ipapi.co/json/";
     timeout := 10; no_print_time := true |}.

(** A world in which the endpoint always answers and no mock file exists. *)
Definition online : env :=
  {| url_accepted := fun _ => true;
     http_get := fun _ _ _ => HttpResponse 200 (Some reply);
     read_mock := fun _ _ => MockMissing;
     utcnow := fun _ => t0;
     stdout_errors := Strict;
     sleep_max := 9223372035 |}.

(** A world in which the endpoint answers 200 with a body that is not JSON
    in cycle 0, and properly afterwards. *)
Definition garbled_once : env :=
  {| url_accepted := fun _ => true;
     http_get := fun _ _ i => if Z.eqb i 0 then HttpResponse 200 None
                              else HttpResponse 200 (Some reply);
     read_mock := fun _ _ => MockMissing;
     utcnow := fun _ => t0;
     stdout_errors := Strict;
     sleep_max := 9223372035 |}.

(** A world in which the mock file is there and is not JSON. *)
Definition mock_garbled : env :=
  {| url_accepted := fun _ => true;
     http_get := fun _ _ _ => HttpFailure;
     read_mock := fun _ _ => MockInvalid;
     utcnow := fun _ => t0;
     stdout_errors := Strict;
     sleep_max := 9223372035 |}.

(** A world in which the mock file is there for two cycles and then gone. *)
Definition mock_vanishes : env :=
  {| url_accepted := fun _ => true;
     http_get := fun _ _ _ => HttpFailure;
     read_mock := fun _ i => if Z.ltb i 2 then MockJson reply else MockMissing;
     utcnow := fun _ => t0;
     stdout_errors := Strict;
     sleep_max := 9223372035 |}.

(** A world in which the mock file is there and is not UTF-8. *)
Definition mock_latin1 : env :=
  {| url_accepted := fun _ => true;
     http_get := fun _ _ _ => HttpFailure;
     read_mock := fun _ _ => MockNotUtf8;
     utcnow := fun _ => t0;
     stdout_errors := Strict;
     sleep_max := 9223372035 |}.

(** A reply whose ip is the lone surrogate U+D800, as the escape [\ud800]
    of a JSON body gives it. *)
Definition surrogate_ip : gmap string json :=
  <["ip" := JStr (String (ascii_of_nat 237) (String (ascii_of_nat 160)
                    (String (ascii_of_nat 128) "")))]> ∅.

(** A world in which the endpoint answers with that record, on a console
    that replaces what it cannot encode. *)
Definition surrogate_world : env :=
  {| url_accepted := fun _ => true;
     http_get := fun _ _ _ => HttpResponse 200 (Some (JObj surrogate_ip));
     read_mock := fun _ _ => MockMissing;
     utcnow := fun _ => t0;
     stdout_errors := Lenient;
     sleep_max := 9223372035 |}.

(** Two runs with an interval beyond what [time.sleep] takes. *)
Definition two_runs_forever : args :=
  {| mock := None; manual_ip := None; interval := 9223372037; count := 2;
     save_history := None; api_url := "https://ipapi.co/json/";
     timeout := 10; no_print_time := true |}.

(** A world without network. *)
Definition offline : env :=
  {| url_accepted := fun _ => true;
     http_get := fun _ _ _ => HttpFailure;
     read_mock := fun _ _ => MockMissing;
     utcnow := fun _ => t0;
     stdout_errors := Strict;
     sleep_max := 9223372035 |}.

End Samples.

Import Samples.

(* ===================================================================== *)
(** ** The command line of [main]                                         *)
(* ===================================================================== *)

Module Cli.

Definition bytes (l : list nat) : list ascii := map ascii_of_nat l.

(** The characters [str.strip()] removes, as their UTF-8 bytes: the code
    points on which [str.isspace] holds, that is U+0009 to U+000D, U+001C to
    U+001F, U+0020, U+0085, U+00A0, U+1680, U+2000 to U+200A, U+2028,
    U+2029, U+202F, U+205F and U+3000. *)
Definition whitespace : list (list ascii) :=
  map bytes
    [ [9]; [10]; [11]; [12]; [13]; [28]; [29]; [30]; [31]; [32];
      [194; 133]; [194; 160]; [225; 154; 128];
      [226; 128; 128]; [226; 128; 129]; [226; 128; 130]; [226; 128; 131];
      [226; 128; 132]; [226; 128; 133]; [226; 128; 134]; [226; 128; 135];
      [226; 128; 136]; [226; 128; 137]; [226; 128; 138];
      [226; 128; 168]; [226; 128; 169]; [226; 128; 175]; [226; 129; 159];
      [227; 128; 128] ]%nat.

(** [s] without its prefix [p], when it starts with [p]. *)
Fixpoint drop_prefix (p s : list ascii) : option (list ascii) :=
  match p, s with
  | [], _ => Some s
  | a :: p', b :: s' => if Ascii.eqb a b then drop_prefix p' s' else None
  | _ :: _, [] => None
  end.

(** [s] without the first of the words [ws] that it starts with. *)
Fixpoint drop_first (ws : list (list ascii)) (s : list ascii) : option (list ascii) :=
  match ws with
  | [] => None
  | w :: ws' =>
      match drop_prefix w s with
      | Some r => Some r
      | None => drop_first ws' s
      end
  end.

(** Drop leading words of [ws] as long as there is one; [fuel] bounds the
    number of rounds. *)
Fixpoint lstrip_with (ws : list (list ascii)) (fuel : nat) (s : list ascii) : list ascii :=
  match fuel with
  | O => s
  | S n =>
      match drop_first ws s with
      | Some r => lstrip_with ws n r
      | None => s
      end
  end.

(** Leading white space removed: each round removes at least one byte. *)
Definition lstrip_bytes (s : list ascii) : list ascii :=
  lstrip_with whitespace (length s) s.

(** Trailing white space removed: the same on the reversed bytes. *)
Definition rstrip_bytes (s : list ascii) : list ascii :=
  rev (lstrip_with (map (@rev ascii) whitespace) (length s) (rev s)).

(** White space removed at both ends. *)
Definition strip_bytes (s : list ascii) : list ascii := rstrip_bytes (lstrip_bytes s).

(** [s.strip()]. On the UTF-8 bytes of a string a white-space character at
    either end is recognised by its bytes: no encoding is a prefix or a
    suffix of another character's. *)
Definition strip (s : string) : string :=
  string_of_list_ascii (strip_bytes (list_ascii_of_string s)).

(** [s.split(sep)] for a one-character separator: the pieces between the
    separators, empty pieces included; never the empty list. *)
Fixpoint split_on (sep : ascii) (s : string) : list string :=
  match s with
  | EmptyString => [""]
  | String c s' =>
      if Ascii.eqb c sep then "" :: split_on sep s'
      else match split_on sep s' with
           | h :: t => String c h :: t
           | [] => [String c ""]
           end
  end.

(** [sep.join(pieces)]. *)
Fixpoint join_with (sep : ascii) (pieces : list string) : string :=
  match pieces with
  | [] => ""
  | [p] => p
  | p :: rest => p +:+ String sep (join_with sep rest)
  end.

(** [[f.strip() for f in args.fields.split(",") if f.strip()]]. *)
Definition parse_fields (arg : string) : list string :=
  List.filter (fun f => negb (String.eqb f "")) (map strip (split_on "," arg)).

(** A field name as [parse_fields] leaves it: not empty, without a comma,
    and unchanged by [strip]. *)
Definition clean (f : string) : Prop :=
  f <> "" /\ ~ In ","%char (list_ascii_of_string f) /\ strip f = f.

(** [main] from the value of [--fields] on. *)
Definition main_cli (a : args) (e : env) (arg : string) (fs : store) : main_result :=
  main a e (parse_fields arg) fs.

End Cli.

Import Cli.

(* ===================================================================== *)
(** ** More about the normalizer and the loop                             *)
(* ===================================================================== *)

Module Pipeline.

(** The raw keys [normalize_data] looks up. *)
Definition raw_keys : list string :=
  [ "ip"; "query"; "ip_address"; "city"; "region"; "region_name";
    "country_name"; "country"; "country_code"; "latitude"; "lat";
    "longitude"; "lon"; "lng"; "timezone"; "org"; "isp"; "asn"; "as" ].

(** A number or a boolean: the values that have no [in]. *)
Definition number_or_bool (v : json) : bool :=
  match v with
  | JBool _ | JInt _ | JFloat _ => true
  | _ => false
  end.

(** The version of a record is the one its ip gives. *)
Definition version_matches_ip (n : gmap string json) : Prop :=
  ip_version (py_get n "ip") = Ok (py_get n "version").

(** One for a run that a [break] of a handler ended, zero for any other. *)
Definition aborted (s : exit_state) : nat :=
  match s with
  | Aborted => 1
  | _ => 0
  end.

(** One for a run that a failing [time.sleep] ended, zero for any other. *)
Definition crashed (s : exit_state) : nat :=
  match s with
  | Crashed => 1
  | _ => 0
  end.

(** The durations of the sleeps of a trace. *)
Fixpoint sleeps (tr : list event) : list Z :=
  match tr with
  | [] => []
  | Sleep s :: rest => s :: sleeps rest
  | _ :: rest => sleeps rest
  end.

(** The lines a trace presented, cycle by cycle. *)
Fixpoint presentations (tr : list event) : list (list (string * json)) :=
  match tr with
  | [] => []
  | PrintSelected lines :: rest => lines :: presentations rest
  | _ :: rest => presentations rest
  end.

(** The history of a stretch of a run.
    - On a path that holds complete rows, or nothing yet: the stretch left
      the path as it was and reported no append, or the file now holds the
      rows it had, in their place, followed by the rows that were added,
      each with a column for the timestamp and one per field, and at least
      one of them for every append that was reported.
    - On any other path: what it holds is what it held. *)
Definition history_grown (a : args) (fields : list string)
    (fs : store) (tr : list event) (fs' : store) : Prop :=
  (tracked fs (default "" (save_history a)) = true ->
   (fs' !! default "" (save_history a) = fs !! default "" (save_history a) /\
    occurrences is_persist tr = 0%nat) \/
   (exists added,
      rows_at fs' (default "" (save_history a)) =
        Some (default [] (rows_at fs (default "" (save_history a))) ++ added) /\
      Forall (fun row => length row = S (length fields)) added /\
      (occurrences is_persist tr <= length added)%nat)) /\
  (tracked fs (default "" (save_history a)) = false ->
   fs' !! default "" (save_history a) = fs !! default "" (save_history a)).

End Pipeline.

Import Pipeline.

(* ===================================================================== *)
(** ** The one-shot tool, [project3.py]                                   *)
(* ===================================================================== *)

Module Legacy.

(** What [get_ip_info] prints between its banners. *)
Record summary : Type := {
  s_ip : json;
  s_version : string;
  s_city : json;
  s_region : json;
  s_country : json;
  s_country_code : json;
  s_latitude : json;
  s_longitude : json;
  s_timezone : json;
  s_isp : json;
  s_asn : json
}.

(** What [get_ip_info] leaves on the console: the summary, or the message
    of its [except Exception] clause. *)
Inductive output : Type :=
| Summary (r : summary)
| ErrorFetching (x : exn).

(** [requests.get(url).json()]: no time-out, and no [raise_for_status], so
    the body of an error response is parsed like any other. *)
Definition response_json (resp : http_outcome) : result json :=
  match resp with
  | HttpFailure => Raise ConnectionError
  | HttpResponse _ body =>
      match body with
      | Some j => Ok j
      | None => Raise ResponseJSONDecodeError
      end
  end.

(** [data.get(k)] on whatever the body was. *)
Definition data_get (data : json) (k : string) : result json :=
  match data with
  | JObj d => Ok (py_get d k)
  | _ => Raise AttributeError
  end.

(** [get_ip_info()], given what its GET meets. *)
Definition get_ip_info (resp : http_outcome) : output :=
  let r :=
    let! data := response_json resp in
    let! ip := data_get data "ip" in
    let! colon := py_in ":" ip in
    let version := if colon then "IPv6" else "IPv4" in
    let! city := data_get data "city" in
    let! region := data_get data "region" in
    let! country := data_get data "country_name" in
    let! country_code := data_get data "country" in
    let! isp := data_get data "org" in
    let! asn := data_get data "asn" in
    let! latitude := data_get data "latitude" in
    let! longitude := data_get data "longitude" in
    let! timezone := data_get data "timezone" in
    Ok {| s_ip := ip; s_version := version; s_city := city; s_region := region;
          s_country := country; s_country_code := country_code;
          s_latitude := latitude; s_longitude := longitude;
          s_timezone := timezone; s_isp := isp; s_asn := asn |} in
  match r with
  | Ok s => Summary s
  | Raise x => ErrorFetching x
  end.

(** The values that have an [in]: strings, arrays and objects. *)
Definition has_in (v : json) : bool :=
  match v with
  | JStr _ | JList _ | JObj _ => true
  | _ => false
  end.

(** The name of the snapshot file. *)
Definition snapshot_path : string := "ip_info.json".

(** What the snapshot store holds at a path: a file with the JSON value
    that was dumped into it, or something that makes [open(path, "w")]
    fail. *)
Inductive snapshot_node : Type :=
| Snapshot (data : json)
| Locked (err : open_error).

(** [save_to_file()], given what its GET meets: the store it leaves and
    the exception it reported, if any. *)
Definition save_to_file (resp : http_outcome) (fs : gmap string snapshot_node)
  : gmap string snapshot_node * option exn :=
  match response_json resp with
  | Raise x => (fs, Some x)
  | Ok data =>
      match fs !! snapshot_path with
      | Some (Locked err) => (fs, Some (exn_of_open_error err))
      | _ => (<[snapshot_path := Snapshot data]> fs, None)
      end
  end.

(** A reply of the endpoint when it limits the rate: an error status with
    a JSON body that has no ip. *)
Definition rate_limited : http_outcome :=
  HttpResponse 429 (Some (JObj (<["error" := JBool true]> ∅))).

End Legacy.
(** Closed equations are settled by evaluation. *)
Ltac by_vm :=
  lazymatch goal with
  | |- @eq ?T _ ?y => vm_cast_no_check (@eq_refl T y)
  end.

(* ===================================================================== *)
(** ** Properties of the normalizer                                       *)
(* ===================================================================== *)

Section NormalizerFacts.

Implicit Types (data n : gmap string json) (ip v : json) (s : string).

Lemma str_prefix_colon s :
  str_prefix ":" s = true <-> exists s', s = String ":" s'.
Proof.
  destruct s as [|a s']; cbn [str_prefix].
  - split; [discriminate | intros [? ?]; discriminate].
  - rewrite andb_true_r. split.
    + intros H. apply Ascii.eqb_eq in H. subst a. eauto.
    + intros [s'' H]. injection H as <- _. apply Ascii.eqb_refl.
Qed.

(** Searching for the one-character string [":"] is searching for the
    character. *)
Lemma str_contains_colon s :
  str_contains ":" s = true <-> In ":"%char (list_ascii_of_string s).
Proof.
  induction s as [|a s IH].
  - simpl. split; [discriminate | tauto].
  - cbn [str_contains list_ascii_of_string In].
    rewrite orb_true_iff, IH, str_prefix_colon. split.
    + intros [[s' H] | H]; [left; congruence | right; exact H].
    + intros [-> | H]; [left; eauto | right; exact H].
Qed.

Lemma ip_version_falsy ip :
  truthy ip = false -> ip_version ip = Ok (JStr "IPv4").
Proof. intros H. unfold ip_version. rewrite H. reflexivity. Qed.

Lemma ip_version_str s :
  ip_version (JStr s) = Ok (JStr (if str_contains ":" s then "IPv6" else "IPv4")).
Proof.
  unfold ip_version. destruct s as [|a s]; [reflexivity|]. reflexivity.
Qed.

Lemma ip_version_checkable ip :
  ip_checkable ip = true ->
  exists c : bool, ip_version ip = Ok (JStr (if c then "IPv6" else "IPv4")).
Proof.
  unfold ip_checkable, ip_version. intros H.
  destruct (truthy ip) eqn:Ht; simpl in H.
  - destruct ip; try discriminate; simpl; eauto.
  - exists false. reflexivity.
Qed.

Lemma ip_version_not_checkable ip :
  ip_checkable ip = false -> ip_version ip = Raise TypeError.
Proof.
  unfold ip_checkable, ip_version. intros H.
  destruct (truthy ip) eqn:Ht; simpl in H; [|discriminate].
  destruct ip; try discriminate; reflexivity.
Qed.

(** [(a or b) or c] takes the first true operand, [c] when there is none. *)
Lemma py_or_assoc (a b c : json) :
  py_or (py_or a b) c = if truthy a then a else py_or b c.
Proof.
  unfold py_or. destruct (truthy a) eqn:Ha; [by rewrite Ha | reflexivity].
Qed.

(** [normalize_data] is its version computation followed by twelve stores. *)
Lemma normalize_data_eq data :
  normalize_data data =
  let! version := ip_version (resolved_ip data) in
  Ok (<["org" := or_chain data ["org"]]>
     (<["asn" := or_chain data ["asn"; "as"]]>
     (<["isp" := or_chain data ["org"; "isp"]]>
     (<["timezone" := or_chain data ["timezone"]]>
     (<["longitude" := or_chain data ["longitude"; "lon"; "lng"]]>
     (<["latitude" := or_chain data ["latitude"; "lat"]]>
     (<["country_code" := or_chain data ["country"; "country_code"]]>
     (<["country" := or_chain data ["country_name"; "country"]]>
     (<["region" := or_chain data ["region"; "region_name"]]>
     (<["city" := or_chain data ["city"]]>
     (<["version" := version]>
     (<["ip" := or_chain data ["ip"; "query"; "ip_address"]]> ∅)))))))))))).
Proof.
  unfold normalize_data, resolved_ip. rewrite !py_or_assoc. reflexivity.
Qed.

Lemma resolved_ip_or_chain data :
  resolved_ip data = or_chain data ["ip"; "query"; "ip_address"].
Proof.
  unfold resolved_ip. rewrite py_or_assoc. reflexivity.
Qed.

(** When the version computation returns, so does [normalize_data], and the
    record it returns is read off field by field. *)
Lemma normalize_data_fields data version :
  ip_version (resolved_ip data) = Ok version ->
  exists n, normalize_data data = Ok n /\
    dom n = canonical_keys /\
    n !! "version" = Some version /\
    forall f cs, In (f, cs) candidate_table -> n !! f = Some (or_chain data cs).
Proof.
  intros Hv. rewrite normalize_data_eq, Hv. cbn [bind].
  eexists; split; [reflexivity|]. split; [|split].
  - rewrite !dom_insert_L, dom_empty_L. unfold canonical_keys. set_solver.
  - by simplify_map_eq.
  - intros f cs Hin. cbn [candidate_table In] in Hin.
    repeat (destruct Hin as [Hin | Hin];
            [injection Hin as <- <-; by simplify_map_eq|]).
    destruct Hin.
Qed.

Lemma normalize_data_raises data :
  ip_checkable (resolved_ip data) = false -> normalize_data data = Raise TypeError.
Proof.
  intros H. rewrite normalize_data_eq, (ip_version_not_checkable _ H). reflexivity.
Qed.

(** [normalize_data] returns exactly on the records whose ip can be checked
    for a colon. *)
Lemma normalize_data_returns data :
  ip_checkable (resolved_ip data) = true <-> exists n, normalize_data data = Ok n.
Proof.
  split.
  - intros H. destruct (ip_version_checkable _ H) as [c Hc].
    destruct (normalize_data_fields _ _ Hc) as (n & Hn & _). eauto.
  - intros [n Hn]. destruct (ip_checkable (resolved_ip data)) eqn:E; [reflexivity|].
    rewrite (normalize_data_raises _ E) in Hn. discriminate.
Qed.

(** [normalize_data] raises nothing but the [TypeError] of [":" in ip]. *)
Lemma normalize_data_raises_type_error data x :
  normalize_data data = Raise x -> x = TypeError.
Proof.
  intros H. destruct (ip_checkable (resolved_ip data)) eqn:E.
  - apply normalize_data_returns in E as [n Hn]. congruence.
  - rewrite (normalize_data_raises _ E) in H. congruence.
Qed.

(** On a value that is not a dict it is [data.get] that fails. *)
Lemma normalize_raw_raises (j : json) x :
  normalize_raw j = Raise x -> x = TypeError \/ x = AttributeError.
Proof.
  destruct j; cbn [normalize_raw]; intros H;
    try (injection H as <-; by right).
  left. by apply normalize_data_raises_type_error in H.
Qed.

(** Every field of the candidate table holds the value of its [or] chain. *)
Lemma normalize_data_resolution data :
  ip_checkable (resolved_ip data) = true ->
  exists n, normalize_data data = Ok n /\
    forall f cs, In (f, cs) candidate_table -> n !! f = Some (or_chain data cs).
Proof.
  intros Hc. destruct (ip_version_checkable _ Hc) as [c Hv].
  destruct (normalize_data_fields _ _ Hv) as (n & Hn & _ & _ & Hf). eauto.
Qed.

Lemma or_chain_first_truthy data cs v :
  first_truthy data cs = Some v -> or_chain data cs = v.
Proof.
  induction cs as [|k ks IH]; [discriminate|].
  cbn [first_truthy]. destruct (truthy (py_get data k)) eqn:Hk.
  - intros [= <-]. destruct ks; cbn [or_chain]; [reflexivity|]. by rewrite Hk.
  - intros H. destruct ks as [|k' ks']; [discriminate|].
    change (or_chain data (k :: k' :: ks'))
      with (if truthy (py_get data k) then py_get data k else or_chain data (k' :: ks')).
    rewrite Hk. exact (IH H).
Qed.

Lemma or_chain_all_null data cs :
  (forall k, In k cs -> py_get data k = JNull) -> or_chain data cs = JNull.
Proof.
  induction cs as [|k ks IH]; [reflexivity|]. intros H.
  destruct ks as [|k' ks'].
  - cbn [or_chain]. apply H. by left.
  - change (or_chain data (k :: k' :: ks'))
      with (if truthy (py_get data k) then py_get data k else or_chain data (k' :: ks')).
    rewrite (H k) by (by left). cbn [truthy]. apply IH. intros k0 Hk0. apply H. by right.
Qed.

(** Where no candidate is a false value other than null, the [or] chain
    takes the first candidate that is not null. *)
Lemma or_chain_first_non_null data cs :
  (forall k, In k cs -> py_get data k = JNull \/ truthy (py_get data k) = true) ->
  or_chain data cs = first_non_null data cs.
Proof.
  induction cs as [|k ks IH]; [reflexivity|]. intros H.
  assert (IH' : or_chain data ks = first_non_null data ks)
    by (apply IH; intros k0 Hk0; apply H; by right).
  cbn [first_non_null].
  destruct (H k ltac:(by left)) as [Hk | Hk].
  - rewrite Hk. cbn [is_null].
    destruct ks as [|k' ks']; [cbn; exact Hk|].
    change (or_chain data (k :: k' :: ks'))
      with (if truthy (py_get data k) then py_get data k else or_chain data (k' :: ks')).
    rewrite Hk. exact IH'.
  - assert (Hnn : is_null (py_get data k) = false)
      by (destruct (py_get data k); (discriminate || reflexivity)).
    rewrite Hnn. destruct ks as [|k' ks']; [reflexivity|].
    change (or_chain data (k :: k' :: ks'))
      with (if truthy (py_get data k) then py_get data k else or_chain data (k' :: ks')).
    by rewrite Hk.
Qed.

Lemma py_get_missing data k : data !! k = None -> py_get data k = JNull.
Proof. unfold py_get. by intros ->. Qed.

End NormalizerFacts.

(* ===================================================================== *)
(** ** The normalizer: what the specification states                      *)
(* ===================================================================== *)

Section NormalizerClaims.

Implicit Types (data n : gmap string json) (s : string).

Example normalize_spec_sample :
  normalize_data ip_city =
  Ok (list_to_map
        [ ("ip", JStr "1.2.3.4"); ("version", JStr "IPv4"); ("city", JStr "X");
          ("region", JNull); ("country", JNull); ("country_code", JNull);
          ("latitude", JNull); ("longitude", JNull); ("timezone", JNull);
          ("isp", JNull); ("asn", JNull); ("org", JNull) ]).
Proof. by_vm. Qed.

(** C1, as amended. When the resolved ip is null, [normalize_data] returns a
    record whose ip is null and whose version is the string "IPv4": the
    [ip and ...] guard sends a null ip to the [else] branch. *)
Theorem normalize_data_null_ip_version data :
  resolved_ip data = JNull ->
  exists n, normalize_data data = Ok n /\
    n !! "ip" = Some JNull /\
    n !! "version" = Some (JStr "IPv4").
Proof.
  intros Hip.
  assert (Hv : ip_version (resolved_ip data) = Ok (JStr "IPv4"))
    by (rewrite Hip; reflexivity).
  destruct (normalize_data_fields _ _ Hv) as (n & Hn & _ & Hver & Hf).
  exists n. split; [exact Hn|]. split; [|exact Hver].
  rewrite (Hf "ip" ["ip"; "query"; "ip_address"]) by (by left).
  by rewrite <- resolved_ip_or_chain, Hip.
Qed.

Lemma normalize_data_null_ip_version_witness :
  exists n, normalize_data no_ip = Ok n /\
    n !! "ip" = Some JNull /\
    n !! "version" = Some (JStr "IPv4").
Proof.
  apply (normalize_data_null_ip_version no_ip).
  reflexivity.
Defined.

(** C1 as the specification words it fails: a record with no ip candidate at
    all has null for its resolved ip, and its normalized record carries the
    version "IPv4", which is neither a missing key nor null. *)
Lemma null_ip_version_not_absent :
  resolved_ip no_ip = JNull /\
  field_of (normalize_data no_ip) "version" = Some (JStr "IPv4") /\
  exists n, normalize_data no_ip = Ok n /\ ~ version_absent n.
Proof.
  split; [reflexivity|]. split; [by_vm|].
  destruct (normalize_data_fields no_ip (JStr "IPv4")) as (n & Hn & _ & Hv & _);
    [reflexivity|].
  exists n. split; [exact Hn|].
  unfold version_absent. rewrite Hv. intros [H | H]; discriminate.
Qed.

(** C2. When the resolved ip is a string [s], [normalize_data] returns; the
    record's ip is [s], its version is "IPv6" exactly when [s] contains a
    colon, and "IPv4" otherwise. *)
Theorem normalize_data_version_of_string data s :
  resolved_ip data = JStr s ->
  exists n, normalize_data data = Ok n /\
    n !! "ip" = Some (JStr s) /\
    (n !! "version" = Some (JStr "IPv6") <-> In ":"%char (list_ascii_of_string s)) /\
    (~ In ":"%char (list_ascii_of_string s) -> n !! "version" = Some (JStr "IPv4")).
Proof.
  intros Hip.
  pose proof (ip_version_str s) as Hv. rewrite <- Hip in Hv at 1.
  destruct (normalize_data_fields _ _ Hv) as (n & Hn & _ & Hver & Hf).
  exists n. split; [exact Hn|]. split; [|split].
  - rewrite (Hf "ip" ["ip"; "query"; "ip_address"]) by (by left).
    by rewrite <- resolved_ip_or_chain, Hip.
  - rewrite Hver, <- str_contains_colon.
    destruct (str_contains ":" s); split; intros H; congruence.
  - rewrite <- str_contains_colon, Hver.
    destruct (str_contains ":" s); [intros []; reflexivity | reflexivity].
Qed.

Lemma normalize_data_version_of_string_witness :
  exists n, normalize_data v6_query = Ok n /\
    n !! "ip" = Some (JStr "2001:db8::1") /\
    (n !! "version" = Some (JStr "IPv6") <->
     In ":"%char (list_ascii_of_string "2001:db8::1")) /\
    (~ In ":"%char (list_ascii_of_string "2001:db8::1") ->
     n !! "version" = Some (JStr "IPv4")).
Proof.
  apply (normalize_data_version_of_string v6_query).
  reflexivity.
Defined.

Example version_of_samples :
  ip_version (JStr "2001:db8::1") = Ok (JStr "IPv6") /\
  ip_version (JStr "1.2.3.4") = Ok (JStr "IPv4") /\
  ip_version (JStr "") = Ok (JStr "IPv4").
Proof. repeat split. Qed.

(** C3, as amended. On every record whose ip can be checked for a colon,
    [normalize_data] returns, and each field of the candidate table holds the
    first candidate, left to right, whose value is true in Python's sense
    (not null, false, zero or empty), later candidates notwithstanding; a
    field whose candidates are all null or missing is null; and where each
    candidate is either null or true, the value is the first candidate that
    is not null. *)
Theorem normalize_data_first_truthy data :
  ip_checkable (resolved_ip data) = true ->
  exists n, normalize_data data = Ok n /\
    forall f cs, In (f, cs) candidate_table ->
      (forall v, first_truthy data cs = Some v -> n !! f = Some v) /\
      ((forall k, In k cs -> py_get data k = JNull) -> n !! f = Some JNull) /\
      ((forall k, In k cs -> py_get data k = JNull \/ truthy (py_get data k) = true) ->
       n !! f = Some (first_non_null data cs)).
Proof.
  intros Hc. destruct (normalize_data_resolution data Hc) as (n & Hn & Hf).
  exists n. split; [exact Hn|]. intros f cs Hin. rewrite (Hf f cs Hin).
  split; [|split].
  - intros v Hft. by rewrite (or_chain_first_truthy _ _ _ Hft).
  - intros Hnull. by rewrite (or_chain_all_null _ _ Hnull).
  - intros Hclean. by rewrite (or_chain_first_non_null _ _ Hclean).
Qed.

Lemma normalize_data_first_truthy_witness :
  exists n, normalize_data lat_lon = Ok n /\
    forall f cs, In (f, cs) candidate_table ->
      (forall v, first_truthy lat_lon cs = Some v -> n !! f = Some v) /\
      ((forall k, In k cs -> py_get lat_lon k = JNull) -> n !! f = Some JNull) /\
      ((forall k, In k cs ->
          py_get lat_lon k = JNull \/ truthy (py_get lat_lon k) = true) ->
       n !! f = Some (first_non_null lat_lon cs)).
Proof.
  apply (normalize_data_first_truthy lat_lon).
  reflexivity.
Defined.

Example lat_lon_resolved :
  field_of (normalize_data lat_lon) "latitude" = Some (JInt 7) /\
  field_of (normalize_data lat_lon) "longitude" = Some (JInt 9) /\
  field_of (normalize_data lat_lon) "isp" = Some JNull.
Proof. repeat split; by_vm. Qed.

(** C3 as the specification words it fails: with latitude 0 and lat 7 the
    first candidate that is not null is 0, and the record gets 7. *)
Lemma first_non_null_not_chosen :
  In ("latitude", ["latitude"; "lat"]) candidate_table /\
  first_non_null zero_latitude ["latitude"; "lat"] = JInt 0 /\
  field_of (normalize_data zero_latitude) "latitude" = Some (JInt 7) /\
  exists n, normalize_data zero_latitude = Ok n /\
    ~ (forall f cs, In (f, cs) candidate_table ->
         n !! f = Some (first_non_null zero_latitude cs)).
Proof.
  assert (Hin : In ("latitude", ["latitude"; "lat"]) candidate_table)
    by (cbn; tauto).
  split; [exact Hin|]. split; [reflexivity|]. split; [by_vm|].
  destruct (normalize_data_fields zero_latitude (JStr "IPv4"))
    as (n & Hn & _ & _ & Hf); [reflexivity|].
  exists n. split; [exact Hn|].
  intros H. specialize (H _ _ Hin). rewrite (Hf _ _ Hin) in H. discriminate.
Qed.

(** The same rule drops a zero that stands alone under the first name. *)
Example zero_latitude_alone :
  exists n, normalize_data (<["latitude" := JInt 0]> ∅) = Ok n /\
    n !! "latitude" = Some JNull.
Proof.
  destruct (normalize_data_fields (<["latitude" := JInt 0]> ∅) (JStr "IPv4"))
    as (n & Hn & _ & _ & Hf); [reflexivity|].
  exists n. split; [exact Hn|].
  by rewrite (Hf "latitude" ["latitude"; "lat"]) by (cbn; tauto).
Qed.

(** C4, as amended. On every record whose resolved ip is false in Python's
    sense (null included) or is a string, an array or an object,
    [normalize_data] raises nothing and returns a record in which every
    field of the candidate table whose candidate keys are all missing is
    null. *)
Theorem normalize_data_missing_keys data :
  ip_checkable (resolved_ip data) = true ->
  exists n, normalize_data data = Ok n /\
    forall f cs, In (f, cs) candidate_table ->
      (forall k, In k cs -> data !! k = None) -> n !! f = Some JNull.
Proof.
  intros Hc. destruct (normalize_data_resolution data Hc) as (n & Hn & Hf).
  exists n. split; [exact Hn|]. intros f cs Hin Hmiss.
  rewrite (Hf f cs Hin). f_equal. apply or_chain_all_null.
  intros k Hk. apply py_get_missing, Hmiss, Hk.
Qed.

Lemma normalize_data_missing_keys_witness :
  exists n, normalize_data ip_city = Ok n /\
    forall f cs, In (f, cs) candidate_table ->
      (forall k, In k cs -> ip_city !! k = None) -> n !! f = Some JNull.
Proof.
  apply (normalize_data_missing_keys ip_city).
  reflexivity.
Defined.

(** C4 as the specification words it fails: a record that misses every
    candidate key except [query], which holds a number, makes
    [normalize_data] raise [TypeError] at [":" in ip]. *)
Lemma normalize_data_can_raise :
  (forall k, k <> "query" -> numeric_query !! k = None) /\
  normalize_data numeric_query = Raise TypeError /\
  ~ exists n, normalize_data numeric_query = Ok n.
Proof.
  assert (H : normalize_data numeric_query = Raise TypeError)
    by (apply normalize_data_raises; reflexivity).
  split; [intros k Hk; by apply lookup_insert_None|].
  split; [exact H|]. intros [n Hn]. rewrite H in Hn. discriminate.
Qed.

(** C10. Whatever the input mapping, a record returned by [normalize_data]
    has exactly the twelve canonical keys; the only other outcome is the
    [TypeError] of an ip that cannot be checked for a colon, where no record
    is returned at all. *)
Theorem normalize_data_keys data :
  match normalize_data data with
  | Ok n => dom n = canonical_keys
  | Raise x => x = TypeError /\ ip_checkable (resolved_ip data) = false
  end.
Proof.
  destruct (ip_checkable (resolved_ip data)) eqn:Hc.
  - destruct (ip_version_checkable _ Hc) as [c Hv].
    destruct (normalize_data_fields _ _ Hv) as (n & Hn & Hdom & _).
    rewrite Hn. exact Hdom.
  - rewrite (normalize_data_raises _ Hc). split; reflexivity.
Qed.

(** The empty mapping is normalized to the twelve keys as well. *)
Example normalize_data_empty :
  exists n, normalize_data ∅ = Ok n /\ dom n = canonical_keys /\
    forall k, k ∈ canonical_keys -> k <> "version" -> n !! k = Some JNull.
Proof.
  destruct (normalize_data_fields ∅ (JStr "IPv4")) as (n & Hn & Hdom & _ & Hf);
    [reflexivity|].
  exists n. split; [exact Hn|]. split; [exact Hdom|].
  intros k Hk Hne. unfold canonical_keys in Hk.
  assert (Hcases : exists cs, In (k, cs) candidate_table).
  { cbn [candidate_table In].
    repeat (apply elem_of_union in Hk as [Hk | Hk]);
      apply elem_of_singleton in Hk; subst k; try congruence; eauto 20. }
  destruct Hcases as [cs Hin]. rewrite (Hf _ _ Hin).
  f_equal. apply or_chain_all_null. intros k' _. reflexivity.
Qed.

(** A raw key that is not a candidate does not reach the record. *)
Example extra_key_not_passed_through :
  exists n, normalize_data (<["hostname" := JStr "h"]> ip_city) = Ok n /\
    n !! "hostname" = None.
Proof.
  destruct (normalize_data_fields (<["hostname" := JStr "h"]> ip_city) (JStr "IPv4"))
    as (n & Hn & Hdom & _); [reflexivity|].
  exists n. split; [exact Hn|].
  apply not_elem_of_dom. rewrite Hdom. unfold canonical_keys. intros H.
  repeat (apply elem_of_union in H as [H | H]);
    apply elem_of_singleton in H; discriminate.
Qed.

(** C9. A non-empty manual override [s] stores [s] as the record's ip and a
    version recomputed from [s] alone ("IPv6" exactly when [s] contains a
    colon), leaving every other field as it was; the override "2001:db8::1"
    gives version "IPv6" on any record. *)
Theorem manual_ip_override :
  (forall data s, s <> "" ->
     apply_manual_ip (Some s) data !! "ip" = Some (JStr s) /\
     apply_manual_ip (Some s) data !! "version" =
       Some (JStr (if str_contains ":" s then "IPv6" else "IPv4")) /\
     (apply_manual_ip (Some s) data !! "version" = Some (JStr "IPv6") <->
      In ":"%char (list_ascii_of_string s)) /\
     (forall k, k <> "ip" -> k <> "version" ->
        apply_manual_ip (Some s) data !! k = data !! k)) /\
  (forall data,
     apply_manual_ip (Some "2001:db8::1") data !! "ip" = Some (JStr "2001:db8::1") /\
     apply_manual_ip (Some "2001:db8::1") data !! "version" = Some (JStr "IPv6")).
Proof.
  split.
  - intros data s Hs. unfold apply_manual_ip.
    assert (Hne : String.eqb s "" = false) by (by apply String.eqb_neq).
    rewrite Hne. cbn [negb].
    split; [by simplify_map_eq|]. split; [by simplify_map_eq|]. split.
    + rewrite lookup_insert_eq, <- str_contains_colon.
      destruct (str_contains ":" s); split; intros H; congruence.
    + intros k Hk1 Hk2. by rewrite !lookup_insert_ne.
  - intros data. unfold apply_manual_ip. cbn [String.eqb Ascii.eqb negb].
    split; by simplify_map_eq.
Qed.

Lemma manual_ip_override_witness :
  apply_manual_ip (Some "1.2.3.4") v6_query !! "ip" = Some (JStr "1.2.3.4") /\
  apply_manual_ip (Some "1.2.3.4") v6_query !! "version" = Some (JStr "IPv4").
Proof.
  pose proof (proj1 manual_ip_override v6_query "1.2.3.4") as H.
  destruct H as (H1 & H2 & _); [discriminate|].
  split; [exact H1 | exact H2].
Defined.

(** Without an override, or with an empty one, the record is left alone. *)
Example no_override data :
  apply_manual_ip None data = data /\ apply_manual_ip (Some "") data = data.
Proof. split; reflexivity. Qed.

End NormalizerClaims.

(* ===================================================================== *)
(** ** Properties of the history writer                                   *)
(* ===================================================================== *)

Section HistoryFacts.

Implicit Types (data : gmap string json) (fields : list string) (fs : store).

(** The row dictionary after the [for f in fields] loop: a selected field
    holds [data.get(f)], any other key what it held before. *)
Lemma row_fill_lookup data fields (row : gmap string json) k :
  fold_left (fun row f => <[f := py_get data f]> row) fields row !! k =
  if decide (k ∈ fields) then Some (py_get data k) else row !! k.
Proof.
  revert row. induction fields as [|f fields IH]; intros row; cbn [fold_left].
  - case_decide as H; [by apply elem_of_nil in H | reflexivity].
  - rewrite IH. destruct (decide (k ∈ fields)) as [Hin | Hnin].
    + rewrite decide_True by (by right). reflexivity.
    + destruct (decide (k = f)) as [-> | Hne].
      * rewrite decide_True by (by left). by rewrite lookup_insert_eq.
      * rewrite decide_False by (intros [?|?]%elem_of_cons; done).
        by rewrite lookup_insert_ne.
Qed.

Lemma writerow_fields data fields (row : gmap string json) (names : list string) :
  (forall k, k ∈ names -> k ∈ fields) ->
  writerow names (fold_left (fun row f => <[f := py_get data f]> row) fields row) =
  map (py_get data) names.
Proof.
  intros Hsub. unfold writerow. apply map_ext_in. intros k Hk.
  rewrite row_fill_lookup, decide_True; [reflexivity|].
  apply Hsub. by apply list_elem_of_In.
Qed.

(** The data row of a call: the timestamp column, then one column per
    selected field. A field that is itself named "timestamp" takes the
    column over. *)
Lemma data_row_eq data fields ts :
  writerow ("timestamp" :: fields)
    (fold_left (fun row f => <[f := py_get data f]> row) fields {[ "timestamp" := ts ]}) =
  (if decide ("timestamp" ∈ fields) then py_get data "timestamp" else ts)
    :: map (py_get data) fields.
Proof.
  change (writerow ("timestamp" :: fields) ?r)
    with (default (JStr "") (r !! "timestamp") :: writerow fields r).
  rewrite writerow_fields by done. f_equal.
  rewrite row_fill_lookup. case_decide; [reflexivity|].
  by rewrite lookup_singleton_eq.
Qed.

Lemma plain_encodes h s : plain s = true -> encodes h s = true.
Proof.
  induction s as [|a s IH]; [reflexivity|]. cbn [plain]. intros [Ha Hs]%andb_true_iff.
  destruct s as [|b s]; [reflexivity|].
  change (encodes h (String a (String b s)))
    with ((negb (surrogate_lead a b) || tolerates h b) && encodes h (String b s)).
  rewrite (IH Hs), andb_true_r. apply orb_true_iff. left.
  unfold surrogate_lead. apply negb_true_iff in Ha. by rewrite Ha.
Qed.

Lemma plain_app s t : plain (s +:+ t) = plain s && plain t.
Proof.
  induction s as [|a s IH]; [reflexivity|].
  change (String a s +:+ t) with (String a (s +:+ t)). cbn [plain].
  by rewrite IH, andb_assoc.
Qed.

Lemma plain_zpad w n : plain (zpad w n) = true.
Proof.
  revert n. induction w as [|w IH]; intros n; cbn [zpad]; [reflexivity|].
  rewrite plain_app, IH. cbn [plain andb]. rewrite andb_true_r.
  unfold digit. rewrite nat_ascii_embedding.
  - apply negb_true_iff, Nat.eqb_neq.
    pose proof (Nat.mod_upper_bound n 10 ltac:(lia)). lia.
  - pose proof (Nat.mod_upper_bound n 10 ltac:(lia)). lia.
Qed.

(** The timestamp of a row is ASCII. *)
Lemma isoformat_plain t : plain (isoformat t +:+ "Z") = true.
Proof.
  unfold isoformat. rewrite !plain_app, !plain_zpad.
  destruct (Nat.eqb (microsecond t) 0); [reflexivity|].
  by rewrite plain_app, plain_zpad.
Qed.

Lemma forallb_over_map {A B} (f : B -> bool) (g : A -> B) (l : list A) :
  forallb f (map g l) = forallb (fun x => f (g x)) l.
Proof. induction l as [|x l IH]; [reflexivity|]. cbn [map forallb]. by rewrite IH. Qed.

Lemma header_row_encodes fields :
  forallb (text_encodes Strict) (writeheader ("timestamp" :: fields)) =
  header_encodes fields.
Proof.
  unfold writeheader, header_encodes. cbn [map forallb text_encodes].
  rewrite forallb_over_map. reflexivity.
Qed.

(** The data row can be written exactly when every value it takes from the
    record can be. *)
Lemma data_row_encodes now data fields :
  forallb (text_encodes Strict)
    (writerow ("timestamp" :: fields)
       (fold_left (fun row f => <[f := py_get data f]> row) fields
          {[ "timestamp" := JStr (isoformat now +:+ "Z") ]})) =
  record_encodes fields data.
Proof.
  rewrite data_row_eq. cbn [forallb]. rewrite forallb_over_map.
  fold (record_encodes fields data).
  case_decide as Hin.
  - destruct (record_encodes fields data) eqn:Hrec; [|apply andb_false_r].
    rewrite andb_true_r. unfold record_encodes in Hrec.
    rewrite forallb_forall in Hrec. apply Hrec. by apply list_elem_of_In.
  - cbn [text_encodes]. by rewrite (plain_encodes _ _ (isoformat_plain now)).
Qed.

(** What a call does, by what the path holds:
    - nothing: the header and the data row; only the header when the record
      cannot be encoded, and an empty file when the header cannot;
    - complete rows: the data row after them, or nothing;
    - a file without kept rows: it stays one;
    - something that cannot be opened: the exception of [open]. *)
Lemma append_history_csv_cases now path fields data fs :
  append_history_csv now path fields data fs =
  match fs !! path with
  | None =>
      if header_encodes fields then
        if record_encodes fields data then
          (<[path := Rows [writeheader ("timestamp" :: fields);
                            data_row now fields data]]> fs, None)
        else (<[path := Rows [writeheader ("timestamp" :: fields)]]> fs,
              Some UnicodeEncodeError)
      else (<[path := Rows []]> fs, Some UnicodeEncodeError)
  | Some (Rows rows) =>
      if record_encodes fields data
      then (<[path := Rows (rows ++ [data_row now fields data])]> fs, None)
      else (<[path := Rows rows]> fs, Some UnicodeEncodeError)
  | Some Untracked =>
      if record_encodes fields data
      then (<[path := Untracked]> fs, None)
      else (<[path := Untracked]> fs, Some UnicodeEncodeError)
  | Some (Unopenable err) => (fs, Some (exn_of_open_error err))
  end.
Proof.
  unfold append_history_csv, isfile, open_append, write, data_row.
  destruct (fs !! path) as [[rows | | err]|] eqn:Hp; cbn [negb].
  - rewrite data_row_encodes, data_row_eq. by destruct (record_encodes fields data).
  - rewrite data_row_encodes. by destruct (record_encodes fields data).
  - reflexivity.
  - rewrite header_row_encodes. destruct (header_encodes fields); [|reflexivity].
    rewrite data_row_encodes, data_row_eq. by destruct (record_encodes fields data).
Qed.

(** A call never touches another path, and the rows a file went in with
    stay at its head. *)
Lemma append_history_csv_frame now path fields data fs p :
  p <> path ->
  (append_history_csv now path fields data fs).1 !! p = fs !! p.
Proof.
  intros Hne. rewrite append_history_csv_cases.
  destruct (fs !! path) as [[rows | | err]|];
    repeat (case_match; cbn [fst]); try reflexivity; by rewrite lookup_insert_ne.
Qed.

Lemma string_length_app (s t : string) :
  String.length (s +:+ t) = (String.length s + String.length t)%nat.
Proof. induction s as [|c s IH]; simpl; [reflexivity | by f_equal]. Qed.

Lemma zpad_length w n : String.length (zpad w n) = w.
Proof.
  revert n. induction w as [|w IH]; intros n; cbn [zpad]; [reflexivity|].
  rewrite string_length_app, IH. cbn. lia.
Qed.

(** [isoformat] gives 19 characters, 26 with the microseconds. *)
Lemma isoformat_length t :
  String.length (isoformat t) = if Nat.eqb (microsecond t) 0 then 19%nat else 26%nat.
Proof.
  unfold isoformat.
  destruct (Nat.eqb (microsecond t) 0);
    rewrite !string_length_app, !zpad_length; reflexivity.
Qed.

Example isoformat_sample :
  isoformat t0 = "2024-01-05T03:04:59" /\
  isoformat t1 = "2024-01-05T03:05:00.000250".
Proof. split; reflexivity. Qed.

(** C5, as amended. A call on a path that holds nothing, where the file can
    be created, with field names and values that hold no lone surrogate,
    leaves there exactly the header row, "timestamp" followed by the field
    names, and one data row; a second call on the same path, again with
    values that hold no lone surrogate, adds exactly one data row and no
    header. Neither call raises. Each data row holds [data.get(f)] for the
    fields in order after its timestamp column, and for a field list that
    does not name "timestamp" that column is the UTC time of the call in
    ISO-8601 form followed by "Z". *)
Theorem append_history_csv_rows now1 now2 path fields1 fields2 data1 data2 fs :
  fs !! path = None ->
  header_encodes fields1 = true ->
  record_encodes fields1 data1 = true ->
  record_encodes fields2 data2 = true ->
  exists fs1 fs2 row1 row2,
    append_history_csv now1 path fields1 data1 fs = (fs1, None) /\
    append_history_csv now2 path fields2 data2 fs1 = (fs2, None) /\
    fs1 !! path = Some (Rows [map JStr ("timestamp" :: fields1); row1]) /\
    fs2 !! path = Some (Rows [map JStr ("timestamp" :: fields1); row1; row2]) /\
    tail row1 = map (py_get data1) fields1 /\
    tail row2 = map (py_get data2) fields2 /\
    ("timestamp" ∉ fields1 ->
     timestamp_column row1 = Some (JStr (isoformat now1 +:+ "Z"))) /\
    ("timestamp" ∉ fields2 ->
     timestamp_column row2 = Some (JStr (isoformat now2 +:+ "Z"))) /\
    (forall p, p <> path -> fs2 !! p = fs !! p).
Proof.
  intros Hnone Hh1 Hr1 Hr2.
  exists (<[path := Rows [writeheader ("timestamp" :: fields1);
                          data_row now1 fields1 data1]]> fs).
  eexists _, (data_row now1 fields1 data1), (data_row now2 fields2 data2).
  split; [by rewrite append_history_csv_cases, Hnone, Hh1, Hr1|].
  split; [by rewrite append_history_csv_cases, lookup_insert_eq, Hr2|].
  split; [apply lookup_insert_eq|]. split; [apply lookup_insert_eq|].
  split; [reflexivity|]. split; [reflexivity|].
  unfold data_row. split; [|split].
  - intros Hnin. cbn [timestamp_column head]. by rewrite decide_False.
  - intros Hnin. cbn [timestamp_column head]. by rewrite decide_False.
  - intros p Hne. by rewrite !lookup_insert_ne.
Qed.

Lemma append_history_csv_rows_witness :
  exists fs1 fs2 row1 row2,
    append_history_csv t0 "h.csv" ["ip"; "city"] ip_city ∅ = (fs1, None) /\
    append_history_csv t1 "h.csv" ["ip"; "city"] ip_city fs1 = (fs2, None) /\
    fs1 !! "h.csv" = Some (Rows [map JStr ["timestamp"; "ip"; "city"]; row1]) /\
    fs2 !! "h.csv" = Some (Rows [map JStr ["timestamp"; "ip"; "city"]; row1; row2]) /\
    tail row1 = map (py_get ip_city) ["ip"; "city"] /\
    tail row2 = map (py_get ip_city) ["ip"; "city"] /\
    ("timestamp" ∉ ["ip"; "city"] ->
     timestamp_column row1 = Some (JStr (isoformat t0 +:+ "Z"))) /\
    ("timestamp" ∉ ["ip"; "city"] ->
     timestamp_column row2 = Some (JStr (isoformat t1 +:+ "Z"))) /\
    (forall p, p <> "h.csv" -> fs2 !! p = (∅ : store) !! p).
Proof.
  apply (append_history_csv_rows t0 t1 "h.csv" ["ip"; "city"] ["ip"; "city"]
           ip_city ip_city ∅); reflexivity.
Defined.

Example append_history_csv_sample :
  appended_twice ∅ =
  Some [ [JStr "timestamp"; JStr "ip"; JStr "city"];
         [JStr "2024-01-05T03:04:59Z"; JStr "1.2.3.4"; JStr "X"];
         [JStr "2024-01-05T03:05:00.000250Z"; JStr "1.2.3.4"; JStr "X"] ].
Proof. by_vm. Qed.

(** C5 as the specification words it fails on a field list that names
    "timestamp": the loop over the fields overwrites the timestamp of the
    row with [data.get("timestamp")], and the timestamp column of the data
    row is not the time of the call. *)
Lemma timestamp_field_overwrites_time :
  append_history_csv t0 "h.csv" ["timestamp"] ip_city ∅ =
    ({[ "h.csv" := Rows [ [JStr "timestamp"; JStr "timestamp"]; [JNull; JNull] ] ]},
     None) /\
  ~ exists fs1 row,
      append_history_csv t0 "h.csv" ["timestamp"] ip_city ∅ = (fs1, None) /\
      fs1 !! "h.csv" = Some (Rows [map JStr ["timestamp"; "timestamp"]; row]) /\
      timestamp_column row = Some (JStr (isoformat t0 +:+ "Z")).
Proof.
  assert (H : append_history_csv t0 "h.csv" ["timestamp"] ip_city ∅ =
              ({[ "h.csv" := Rows [ [JStr "timestamp"; JStr "timestamp"];
                                    [JNull; JNull] ] ]}, None))
    by (rewrite append_history_csv_cases; reflexivity).
  split; [exact H|]. intros (fs1 & row & Hfs1 & Hrow & Hts).
  rewrite H in Hfs1. injection Hfs1 as <-.
  rewrite lookup_singleton_eq in Hrow. injection Hrow as <-. discriminate Hts.
Qed.

(** It fails as well on a record with a lone surrogate: the header is
    written, the data row raises, and the file is left with its header
    alone. *)
Example append_history_csv_lone_surrogate :
  append_history_csv t0 "h.csv" ["ip"] surrogate_ip ∅ =
  ({[ "h.csv" := Rows [ [JStr "timestamp"; JStr "ip"] ] ]}, Some UnicodeEncodeError).
Proof. rewrite append_history_csv_cases. reflexivity. Qed.

(** Nor is anything written where the file cannot be created. *)
Example append_history_csv_no_directory :
  append_history_csv t0 "logs/h.csv" ["ip"] ip_city no_logs_directory =
  (no_logs_directory, Some FileNotFoundError).
Proof. reflexivity. Qed.

End HistoryFacts.

(* ===================================================================== *)
(** ** Properties of the scheduler loop                                   *)
(* ===================================================================== *)

Section SchedulerFacts.

Variable a : args.
Variable e : env.
Variable fields : list string.

Implicit Types (rc i k : Z) (fs : store) (x : exn) (tr out : list event).

Lemma occurrences_app p tr1 tr2 :
  occurrences p (tr1 ++ tr2) = (occurrences p tr1 + occurrences p tr2)%nat.
Proof. unfold occurrences. by rewrite filter_app, length_app. Qed.

Lemma occurrences_single p ev :
  occurrences p [ev] = if p ev then 1%nat else 0%nat.
Proof.
  unfold occurrences. destruct (p ev) eqn:H.
  - by rewrite filter_cons_True.
  - rewrite filter_cons_False; [reflexivity | by rewrite H].
Qed.

Lemma occurrences_nil p : occurrences p [] = 0%nat.
Proof. reflexivity. Qed.

Lemma occurrences_cons p ev tr :
  occurrences p (ev :: tr) = ((if p ev then 1 else 0) + occurrences p tr)%nat.
Proof.
  change (ev :: tr) with ([ev] ++ tr). by rewrite occurrences_app, occurrences_single.
Qed.

Lemma occurrences_announce p rc :
  (forall k t, p (PrintRunning k t) = false) -> occurrences p (announce a rc) = 0%nat.
Proof.
  intros Hp. unfold announce, occurrences.
  destruct (negb (no_print_time a)); [|reflexivity].
  rewrite filter_cons_False; [reflexivity|]. by rewrite Hp.
Qed.

(** The loop, one iteration unfolded. *)
Lemma loop_unfold rc fs :
  loop a e fields rc fs =
  if decide (rc < count a) then
    match cycle a e fields rc fs with
    | (out, fs', Break) =>
        {| trace := out; files := fs'; runs := rc; state := Aborted |}
    | (out, fs', Continue) =>
        if (rc + 1 >=? count a)%Z
        then {| trace := out; files := fs'; runs := rc + 1; state := Done |}
        else if pause_returns a e
        then prepend (out ++ [pause a]) (loop a e fields (rc + 1) fs')
        else {| trace := out ++ [pause a]; files := fs'; runs := rc + 1;
                state := Crashed |}
    end
  else {| trace := []; files := fs; runs := rc; state := Done |}.
Proof.
  simp loop. destruct (Z_lt_dec rc (count a)) as [H | H]; simp loop.
  - by rewrite decide_True.
  - by rewrite decide_False.
Qed.

Lemma loop_exhausted rc fs :
  count a <= rc ->
  loop a e fields rc fs = {| trace := []; files := fs; runs := rc; state := Done |}.
Proof. intros H. rewrite loop_unfold, decide_False by lia. reflexivity. Qed.

Lemma loop_break rc fs out fs' :
  rc < count a ->
  cycle a e fields rc fs = (out, fs', Break) ->
  loop a e fields rc fs = {| trace := out; files := fs'; runs := rc; state := Aborted |}.
Proof. intros H Hc. rewrite loop_unfold, decide_True, Hc by lia. reflexivity. Qed.

Lemma loop_last rc fs out fs' :
  rc < count a -> count a <= rc + 1 ->
  cycle a e fields rc fs = (out, fs', Continue) ->
  loop a e fields rc fs = {| trace := out; files := fs'; runs := rc + 1; state := Done |}.
Proof.
  intros H1 H2 Hc. rewrite loop_unfold, decide_True, Hc by lia.
  rewrite Z.geb_leb. destruct (Z.leb_spec (count a) (rc + 1)); [reflexivity | lia].
Qed.

Lemma loop_next rc fs out fs' :
  rc + 1 < count a ->
  pause_returns a e = true ->
  cycle a e fields rc fs = (out, fs', Continue) ->
  loop a e fields rc fs = prepend (out ++ [pause a]) (loop a e fields (rc + 1) fs').
Proof.
  intros H Hp Hc. rewrite loop_unfold, decide_True, Hc, Hp by lia.
  rewrite Z.geb_leb. destruct (Z.leb_spec (count a) (rc + 1)); [lia | reflexivity].
Qed.

Lemma loop_crash rc fs out fs' :
  rc + 1 < count a ->
  pause_returns a e = false ->
  cycle a e fields rc fs = (out, fs', Continue) ->
  loop a e fields rc fs =
  {| trace := out ++ [pause a]; files := fs'; runs := rc + 1; state := Crashed |}.
Proof.
  intros H Hp Hc. rewrite loop_unfold, decide_True, Hc, Hp by lia.
  rewrite Z.geb_leb. destruct (Z.leb_spec (count a) (rc + 1)); [lia | reflexivity].
Qed.

Lemma show_ok (d : gmap string json) :
  forallb (line_prints e) (print_selected d fields) = true ->
  show e fields d = (PrintSelected (print_selected d fields), None).
Proof. intros H. unfold show. by rewrite H. Qed.

Lemma show_interrupted (d : gmap string json) :
  forallb (line_prints e) (print_selected d fields) = false ->
  show e fields d =
  (PrintInterrupted (printed e (print_selected d fields)), Some UnicodeEncodeError).
Proof. intros H. unfold show. by rewrite H. Qed.

(** The seven ways a cycle can go: the data source raises; the normalizer
    raises; the console refuses a line of the record; the record is shown
    and no history is kept; the history writer raises; the console refuses
    the message about the history; or all of it goes through. *)
Lemma cycle_cases rc fs :
  (exists x, (source_call a e rc).2 = Raise x /\
     cycle a e fields rc fs =
     (announce a rc ++ [(source_call a e rc).1] ++ [(handler x).1], fs, (handler x).2)) \/
  (exists j x, (source_call a e rc).2 = Ok j /\ normalize_raw j = Raise x /\
     cycle a e fields rc fs =
     (announce a rc ++ [(source_call a e rc).1] ++ [PrintError UnexpectedError], fs,
      Continue)) \/
  (exists j d, (source_call a e rc).2 = Ok j /\ normalize_raw j = Ok d /\
     forallb (line_prints e)
       (print_selected (apply_manual_ip (manual_ip a) d) fields) = false /\
     cycle a e fields rc fs =
     (announce a rc ++ [(source_call a e rc).1]
        ++ [PrintInterrupted
              (printed e (print_selected (apply_manual_ip (manual_ip a) d) fields));
            PrintError UnexpectedError],
      fs, Continue)) \/
  (exists j d, (source_call a e rc).2 = Ok j /\ normalize_raw j = Ok d /\
     forallb (line_prints e)
       (print_selected (apply_manual_ip (manual_ip a) d) fields) = true /\
     given (save_history a) = false /\
     cycle a e fields rc fs =
     (announce a rc ++ [(source_call a e rc).1]
        ++ [PrintSelected (print_selected (apply_manual_ip (manual_ip a) d) fields)],
      fs, Continue)) \/
  (exists j d fs' x, (source_call a e rc).2 = Ok j /\ normalize_raw j = Ok d /\
     forallb (line_prints e)
       (print_selected (apply_manual_ip (manual_ip a) d) fields) = true /\
     given (save_history a) = true /\
     append_history_csv (utcnow e rc) (default "" (save_history a)) fields
       (apply_manual_ip (manual_ip a) d) fs = (fs', Some x) /\
     cycle a e fields rc fs =
     (announce a rc ++ [(source_call a e rc).1]
        ++ [PrintSelected (print_selected (apply_manual_ip (manual_ip a) d) fields);
            (handler x).1],
      fs', (handler x).2)) \/
  (exists j d fs', (source_call a e rc).2 = Ok j /\ normalize_raw j = Ok d /\
     forallb (line_prints e)
       (print_selected (apply_manual_ip (manual_ip a) d) fields) = true /\
     given (save_history a) = true /\
     append_history_csv (utcnow e rc) (default "" (save_history a)) fields
       (apply_manual_ip (manual_ip a) d) fs = (fs', None) /\
     encodes (stdout_errors e) (default "" (save_history a)) = false /\
     cycle a e fields rc fs =
     (announce a rc ++ [(source_call a e rc).1]
        ++ [PrintSelected (print_selected (apply_manual_ip (manual_ip a) d) fields);
            PrintError UnexpectedError],
      fs', Continue)) \/
  (exists j d fs', (source_call a e rc).2 = Ok j /\ normalize_raw j = Ok d /\
     forallb (line_prints e)
       (print_selected (apply_manual_ip (manual_ip a) d) fields) = true /\
     given (save_history a) = true /\
     append_history_csv (utcnow e rc) (default "" (save_history a)) fields
       (apply_manual_ip (manual_ip a) d) fs = (fs', None) /\
     encodes (stdout_errors e) (default "" (save_history a)) = true /\
     cycle a e fields rc fs =
     (announce a rc ++ [(source_call a e rc).1]
        ++ [PrintSelected (print_selected (apply_manual_ip (manual_ip a) d) fields);
            PrintAppended (default "" (save_history a))],
      fs', Continue)).
Proof.
  unfold cycle, try_body.
  destruct (source_call a e rc).2 as [j | x] eqn:H.
  { destruct (normalize_raw j) as [d | x] eqn:Hn.
    - destruct (forallb (line_prints e)
                  (print_selected (apply_manual_ip (manual_ip a) d) fields)) eqn:Hshow.
      + rewrite (show_ok _ Hshow). cbn [fst snd].
        destruct (given (save_history a)) eqn:Hs.
        * destruct (append_history_csv (utcnow e rc) (default "" (save_history a)) fields
                      (apply_manual_ip (manual_ip a) d) fs) as [fs' [x|]] eqn:Ha.
          -- do 4 right. left. exists j, d, fs', x. repeat split; try done.
             by rewrite <- !app_assoc.
          -- destruct (encodes (stdout_errors e) (default "" (save_history a))) eqn:Hc.
             ++ do 6 right. exists j, d, fs'. repeat split; try done.
                by rewrite <- !app_assoc.
             ++ do 5 right. left. exists j, d, fs'. repeat split; try done.
                by rewrite <- !app_assoc.
        * do 3 right. left. exists j, d. repeat split; try done.
          by rewrite <- !app_assoc.
      + rewrite (show_interrupted _ Hshow). cbn [fst snd].
        do 2 right. left. exists j, d. repeat split; try done.
        by rewrite <- !app_assoc.
    - right. left. exists j, x. repeat split; try done.
      rewrite <- !app_assoc. by destruct (normalize_raw_raises _ _ Hn) as [-> | ->]. }
  left. exists x. split; [done|]. by rewrite <- !app_assoc.
Qed.

(** A cycle whose data source raises: the handler decides. *)
Lemma cycle_source_raises rc fs x :
  (source_call a e rc).2 = Raise x ->
  cycle a e fields rc fs =
  (announce a rc ++ [(source_call a e rc).1] ++ [(handler x).1], fs, (handler x).2).
Proof.
  intros H. unfold cycle, try_body. rewrite H.
  by rewrite <- app_assoc.
Qed.

(** What [append_history_csv] can raise: the exception of [open], with the
    store untouched, or that of the encoder. *)
Lemma append_history_csv_raises now path fs (data : gmap string json) fs' x :
  append_history_csv now path fields data fs = (fs', Some x) ->
  (exists err, fs !! path = Some (Unopenable err) /\ x = exn_of_open_error err /\
     fs' = fs) \/
  x = UnicodeEncodeError.
Proof.
  rewrite append_history_csv_cases.
  destruct (fs !! path) as [[rows | | err]|]; repeat case_match;
    intros [= <- <-]; eauto.
Qed.

(** After a call the path holds a file, unless it could not be opened. *)
Lemma append_history_csv_path now path fs (data : gmap string json) :
  (append_history_csv now path fields data fs).1 !! path = fs !! path \/
  ((exists rows, (append_history_csv now path fields data fs).1 !! path =
                 Some (Rows rows)) /\
   tracked fs path = true).
Proof.
  rewrite append_history_csv_cases. unfold tracked.
  destruct (fs !! path) as [[rows | | err]|] eqn:Hp; repeat case_match; cbn [fst];
    rewrite ?lookup_insert_eq; eauto.
Qed.

(** The store a cycle leaves: the one it found, or what one call of
    [append_history_csv] on the history path made of it. *)
Lemma cycle_store rc fs :
  (cycle a e fields rc fs).1.2 = fs \/
  (given (save_history a) = true /\
   exists d, (cycle a e fields rc fs).1.2 =
     (append_history_csv (utcnow e rc) (default "" (save_history a)) fields d fs).1).
Proof.
  destruct (cycle_cases rc fs)
    as [(x & _ & ->) | [(j & x & _ & _ & ->) | [(j & d & _ & _ & _ & ->)
       | [(j & d & _ & _ & _ & _ & ->) | [(j & d & fs' & x & _ & _ & _ & Hs & Ha & ->)
       | [(j & d & fs' & _ & _ & _ & Hs & Ha & _ & ->)
       | (j & d & fs' & _ & _ & _ & Hs & Ha & _ & ->)]]]]]];
    cbn [fst snd]; try (by left);
    right; (split; [done|]); eexists; by rewrite Ha.
Qed.

(** A cycle leaves the history path as it is, or with a file at it. *)
Lemma cycle_history_path rc fs :
  (cycle a e fields rc fs).1.2 !! default "" (save_history a) =
    fs !! default "" (save_history a) \/
  exists rows, (cycle a e fields rc fs).1.2 !! default "" (save_history a) =
    Some (Rows rows).
Proof.
  destruct (cycle_store rc fs) as [-> | (_ & d & ->)]; [by left|].
  destruct (append_history_csv_path (utcnow e rc) (default "" (save_history a)) fs d)
    as [-> | [[rows ->] _]]; eauto.
Qed.

Lemma cycle_keeps_reachable rc fs :
  history_reachable a fs -> history_reachable a (cycle a e fields rc fs).1.2.
Proof.
  unfold history_reachable. intros Hr Hs.
  destruct (cycle_history_path rc fs) as [-> | [rows ->]]; [by apply Hr | discriminate].
Qed.

(** What breaks the loop: an exception of the data source that one of the
    two breaking clauses catches, or a history file in a directory that does
    not exist. *)
Lemma cycle_break_cause rc fs :
  (cycle a e fields rc fs).2 = Break ->
  (exists x, (source_call a e rc).2 = Raise x /\ (handler x).2 = Break) \/
  (given (save_history a) = true /\
   fs !! default "" (save_history a) = Some (Unopenable NoSuchDirectory)).
Proof.
  destruct (cycle_cases rc fs)
    as [(x & Hx & ->) | [(j & x & _ & _ & ->) | [(j & d & _ & _ & _ & ->)
       | [(j & d & _ & _ & _ & _ & ->) | [(j & d & fs' & x & _ & _ & _ & Hs & Ha & ->)
       | [(j & d & fs' & _ & _ & _ & Hs & Ha & _ & ->)
       | (j & d & fs' & _ & _ & _ & Hs & Ha & _ & ->)]]]]]];
    cbn [fst snd]; try discriminate.
  - intros Hb. left. eauto.
  - intros Hb. right. split; [done|].
    destruct (append_history_csv_raises _ _ _ _ _ _ Ha) as [(err & Herr & -> & _) | ->];
      [|discriminate].
    by destruct err.
Qed.

(** A cycle whose data source returns stops the loop only through a history
    file in a directory that does not exist. *)
Lemma cycle_source_ok_continues rc fs j :
  (source_call a e rc).2 = Ok j ->
  history_reachable a fs ->
  (cycle a e fields rc fs).2 = Continue.
Proof.
  intros H Hr. destruct (cycle a e fields rc fs).2 eqn:Hv; [reflexivity|].
  destruct (cycle_break_cause rc fs Hv) as [(x & Hx & _) | [Hs Hp]]; [congruence|].
  by destruct (Hr Hs).
Qed.

Lemma source_call_is_fetch rc : is_fetch (source_call a e rc).1 = true.
Proof. unfold source_call. by destruct (given (mock a)). Qed.

Lemma source_call_event rc :
  is_present (source_call a e rc).1 = false /\
  is_persist (source_call a e rc).1 = false /\
  is_sleep (source_call a e rc).1 = false.
Proof. unfold source_call. by destruct (given (mock a)). Qed.

Lemma handler_is_error x : exists m, (handler x).1 = PrintError m.
Proof. unfold handler. repeat case_match; cbn [fst]; eauto. Qed.

Lemma handler_event x :
  is_fetch (handler x).1 = false /\ is_present (handler x).1 = false /\
  is_persist (handler x).1 = false /\ is_sleep (handler x).1 = false.
Proof. by destruct (handler_is_error x) as [m ->]. Qed.

(** Every cycle calls its data source exactly once, and none sleeps. *)
Lemma cycle_fetches_once rc fs :
  occurrences is_fetch (cycle a e fields rc fs).1.1 = 1%nat /\
  occurrences is_sleep (cycle a e fields rc fs).1.1 = 0%nat.
Proof.
  pose proof (source_call_is_fetch rc) as Hf.
  destruct (source_call_event rc) as (_ & _ & Hsl).
  destruct (cycle_cases rc fs)
    as [(x & Hx & ->) | [(j & x & _ & _ & ->) | [(j & d & _ & _ & _ & ->)
       | [(j & d & _ & _ & _ & _ & ->) | [(j & d & fs' & x & _ & _ & _ & Hs & Ha & ->)
       | [(j & d & fs' & _ & _ & _ & Hs & Ha & _ & ->)
       | (j & d & fs' & _ & _ & _ & Hs & Ha & _ & ->)]]]]]];
    cbn [fst snd];
    rewrite !occurrences_app, !occurrences_announce, !occurrences_cons,
      !occurrences_nil by done;
    try (destruct (handler_event x) as (-> & _ & _ & ->));
    by rewrite Hf, Hsl.
Qed.

(** A run in which no cycle breaks and no pause fails, along an invariant
    [inv] of the file store: it ends by its counter, and an event that each
    cycle shows [c] times is seen [c] times per cycle, plus the pauses
    between the cycles. *)
Lemma loop_runs_to_count (inv : store -> Prop) (p : event -> bool) (c : nat) (n : nat) :
  forall rc fs,
    Z.to_nat (count a - rc) = S n ->
    ((1 <= n)%nat -> pause_returns a e = true) ->
    inv fs ->
    (forall i fs', rc <= i < count a -> inv fs' ->
       (cycle a e fields i fs').2 = Continue /\
       occurrences p (cycle a e fields i fs').1.1 = c /\
       inv (cycle a e fields i fs').1.2) ->
    state (loop a e fields rc fs) = Done /\
    runs (loop a e fields rc fs) = count a /\
    occurrences p (trace (loop a e fields rc fs)) =
      (S n * c + n * occurrences p [pause a])%nat /\
    inv (files (loop a e fields rc fs)).
Proof.
  induction n as [|n IH]; intros rc fs Hn Hpause Hinv Hc.
  - destruct (Hc rc fs ltac:(lia) Hinv) as (Hv & Ho & Hi).
    destruct (cycle a e fields rc fs) as [[out fs'] v] eqn:E.
    cbn [fst snd] in Hv, Ho, Hi. subst v.
    rewrite (loop_last rc fs out fs') by (done || lia). cbn [state runs trace files].
    split; [reflexivity|]. split; [lia|]. split; [lia | exact Hi].
  - destruct (Hc rc fs ltac:(lia) Hinv) as (Hv & Ho & Hi).
    destruct (cycle a e fields rc fs) as [[out fs'] v] eqn:E.
    cbn [fst snd] in Hv, Ho, Hi. subst v.
    rewrite (loop_next rc fs out fs') by (done || lia || (apply Hpause; lia)).
    destruct (IH (rc + 1) fs') as (Hs & Hr & Hcount & Hfin);
      [lia | intros _; apply Hpause; lia | exact Hi | |].
    { intros i fs'' Hi' Hinv'. apply Hc; [lia | exact Hinv']. }
    cbn [prepend state runs trace files]. split; [exact Hs|]. split; [exact Hr|].
    split; [|exact Hfin].
    rewrite !occurrences_app, Hcount, Ho. lia.
Qed.

(** A run whose cycles go on up to cycle [k]: what it does from there on is
    what the loop entered at [k] does, after the [k - rc] cycles and pauses
    that came first. *)
Lemma loop_reaches (inv : store -> Prop) k (n : nat) :
  forall rc fs,
    Z.to_nat (k - rc) = n -> rc <= k < count a ->
    (rc < k -> pause_returns a e = true) ->
    inv fs ->
    (forall i fs', rc <= i < k -> inv fs' ->
       (cycle a e fields i fs').2 = Continue /\ inv (cycle a e fields i fs').1.2) ->
    exists before fs_k,
      inv fs_k /\
      trace (loop a e fields rc fs) = before ++ trace (loop a e fields k fs_k) /\
      state (loop a e fields rc fs) = state (loop a e fields k fs_k) /\
      runs (loop a e fields rc fs) = runs (loop a e fields k fs_k) /\
      files (loop a e fields rc fs) = files (loop a e fields k fs_k) /\
      occurrences is_fetch before = n.
Proof.
  induction n as [|n IH]; intros rc fs Hn Hk Hpause Hinv Hgo.
  - assert (rc = k) as -> by lia. exists [], fs. by repeat split.
  - destruct (Hgo rc fs ltac:(lia) Hinv) as [Hv Hnext].
    pose proof (proj1 (cycle_fetches_once rc fs)) as Hone.
    destruct (cycle a e fields rc fs) as [[out fs'] v] eqn:E.
    cbn [fst snd] in Hv, Hnext, Hone. subst v.
    rewrite (loop_next rc fs out fs') by (done || lia || (apply Hpause; lia)).
    destruct (IH (rc + 1) fs') as (before & fs_k & Hi & Ht & Hs & Hr & Hf & Hb);
      [lia | lia | intros _; apply Hpause; lia | exact Hnext | |].
    { intros i fs'' Hi. apply Hgo. lia. }
    exists ((out ++ [pause a]) ++ before), fs_k. cbn [prepend trace state runs files].
    split; [exact Hi|]. split; [by rewrite Ht, <- !app_assoc|].
    split; [exact Hs|]. split; [exact Hr|]. split; [exact Hf|].
    rewrite !occurrences_app, Hone, Hb, occurrences_single. unfold pause. cbn. lia.
Qed.

End SchedulerFacts.

(* ===================================================================== *)
(** ** The scheduler loop: what the specification states                  *)
(* ===================================================================== *)

Section SchedulerClaims.

Implicit Types (a : args) (e : env) (fields : list string) (fs : store) (rc i : Z).

Example three_runs_trace :
  trace (scheduler_loop three_runs online ["ip"; "isp"] ∅) =
  [ PrintRunning 1 3; FetchLive "https://ipapi.co/json/" 10;
    PrintSelected [("Public IP Address", JStr "1.2.3.4"); ("ISP / Provider", JStr "N/A")];
    PrintAppended "h.csv"; Sleep 1;
    PrintRunning 2 3; FetchLive "https://ipapi.co/json/" 10;
    PrintSelected [("Public IP Address", JStr "1.2.3.4"); ("ISP / Provider", JStr "N/A")];
    PrintAppended "h.csv"; Sleep 1;
    PrintRunning 3 3; FetchLive "https://ipapi.co/json/" 10;
    PrintSelected [("Public IP Address", JStr "1.2.3.4"); ("ISP / Provider", JStr "N/A")];
    PrintAppended "h.csv" ].
Proof. by_vm. Qed.

Example three_runs_history :
  rows_at (files (scheduler_loop three_runs online ["ip"; "isp"] ∅)) "h.csv" =
  Some [ [JStr "timestamp"; JStr "ip"; JStr "isp"];
         [JStr "2024-01-05T03:04:59Z"; JStr "1.2.3.4"; JNull];
         [JStr "2024-01-05T03:04:59Z"; JStr "1.2.3.4"; JNull];
         [JStr "2024-01-05T03:04:59Z"; JStr "1.2.3.4"; JNull] ].
Proof. by_vm. Qed.

(** C6. The run that shows the defect: three runs without interval, the
    endpoint answering in each, and a history file configured in a directory
    [logs] that does not exist. The first cycle fetches, normalizes and
    presents its record; [open] then raises [FileNotFoundError] inside
    [append_history_csv], the clause written for a missing mock file catches
    it, reports "Mock file not found" and breaks the loop. One call to the
    data source instead of three, nothing appended, and the loop ends
    aborted with [run_count = 0]. *)
Theorem history_directory_missing_aborts :
  count three_runs_logs = 3 /\ interval three_runs_logs = 0 /\
  (forall i, (source_call three_runs_logs online i).2 = Ok reply) /\
  state (scheduler_loop three_runs_logs online ["ip"] no_logs_directory) = Aborted /\
  runs (scheduler_loop three_runs_logs online ["ip"] no_logs_directory) = 0 /\
  occurrences is_fetch
    (trace (scheduler_loop three_runs_logs online ["ip"] no_logs_directory)) = 1%nat /\
  occurrences is_persist
    (trace (scheduler_loop three_runs_logs online ["ip"] no_logs_directory)) = 0%nat /\
  trace (scheduler_loop three_runs_logs online ["ip"] no_logs_directory) =
    [ PrintRunning 1 3; FetchLive "https://ipapi.co/json/" 10;
      PrintSelected [("Public IP Address", JStr "1.2.3.4")];
      PrintError MockFileNotFound ].
Proof.
  split; [reflexivity|]. split; [reflexivity|]. split; [intros i; reflexivity|].
  split; [by_vm|]. split; [by_vm|]. split; [by_vm|]. split; by_vm.
Qed.

(** The same run with the directory in place goes through its three
    cycles, one second apart. *)
Example history_directory_present :
  state (scheduler_loop three_runs_logs online ["ip"] ∅) = Done /\
  runs (scheduler_loop three_runs_logs online ["ip"] ∅) = 3 /\
  trace (scheduler_loop three_runs_logs online ["ip"] ∅) =
  [ PrintRunning 1 3; FetchLive "https://ipapi.co/json/" 10;
    PrintSelected [("Public IP Address", JStr "1.2.3.4")];
    PrintAppended "logs/h.csv"; Sleep 1;
    PrintRunning 2 3; FetchLive "https://ipapi.co/json/" 10;
    PrintSelected [("Public IP Address", JStr "1.2.3.4")];
    PrintAppended "logs/h.csv"; Sleep 1;
    PrintRunning 3 3; FetchLive "https://ipapi.co/json/" 10;
    PrintSelected [("Public IP Address", JStr "1.2.3.4")];
    PrintAppended "logs/h.csv" ].
Proof. split; [by_vm|]. split; by_vm. Qed.

(** C7, as amended. With a mock path configured and at least one run
    requested, if the first cycle finds no mock file ([open] raises
    [FileNotFoundError]) or a text that the JSON parser rejects ([json.load]
    raises [json.JSONDecodeError]), the loop ends right there through the
    [break] of the handler: one call to the data source and no other,
    whatever the configured count, [run_count] still 0, and the file store
    untouched. *)
Theorem scheduler_mock_unreadable a e fields fs p :
  mock a = Some p -> p <> "" -> 1 <= count a ->
  read_mock e p 0 = MockMissing \/ read_mock e p 0 = MockInvalid ->
  let r := scheduler_loop a e fields fs in
  state r = Aborted /\ runs r = 0 /\ files r = fs /\
  occurrences is_fetch (trace r) = 1%nat /\
  trace r =
    announce a 0 ++
    [ LoadMock p;
      PrintError (match read_mock e p 0 with
                  | MockMissing => MockFileNotFound
                  | _ => InvalidJson
                  end) ].
Proof.
  intros Hmock Hp Hcount Hread r. subst r. unfold scheduler_loop.
  assert (Hgiven : given (mock a) = true).
  { rewrite Hmock. cbn [given]. apply negb_true_iff. by apply String.eqb_neq. }
  assert (Hsrc : exists x, (source_call a e 0).2 = Raise x /\
            (source_call a e 0).1 = LoadMock p /\
            handler x = (PrintError (match read_mock e p 0 with
                                     | MockMissing => MockFileNotFound
                                     | _ => InvalidJson
                                     end), Break)).
  { unfold source_call, load_mock. rewrite Hgiven, Hmock. cbn [from_option id fst snd].
    destruct Hread as [-> | ->]; eexists; (split; [reflexivity|]); split; reflexivity. }
  destruct Hsrc as (x & Hx & Hev & Hh).
  pose proof (cycle_source_raises a e fields 0 fs x Hx) as Hc.
  rewrite Hh, Hev in Hc. cbn [fst snd] in Hc.
  rewrite (loop_break a e fields 0 fs _ _ ltac:(lia) Hc). cbn [state runs files trace].
  split; [reflexivity|]. split; [reflexivity|]. split; [reflexivity|].
  split; [|reflexivity].
  pose proof (proj1 (cycle_fetches_once a e fields 0 fs)) as Hone.
  by rewrite Hc in Hone.
Qed.

Lemma scheduler_mock_unreadable_witness :
  state (scheduler_loop five_mock_runs online ["ip"] ∅) = Aborted /\
  runs (scheduler_loop five_mock_runs online ["ip"] ∅) = 0 /\
  files (scheduler_loop five_mock_runs online ["ip"] ∅) = ∅ /\
  occurrences is_fetch (trace (scheduler_loop five_mock_runs online ["ip"] ∅)) = 1%nat /\
  trace (scheduler_loop five_mock_runs online ["ip"] ∅) =
    [ LoadMock "sample_mock.json"; PrintError MockFileNotFound ].
Proof.
  apply (scheduler_mock_unreadable five_mock_runs online ["ip"] ∅
           "sample_mock.json").
  - reflexivity.
  - discriminate.
  - cbn. lia.
  - left. reflexivity.
Defined.

(** C7 as the specification words it fails on a mock file that is there and
    is not JSON because its bytes are not UTF-8: reading it raises
    [UnicodeDecodeError], which only the last clause catches, and that one
    reports the error and lets the loop go on. All five configured cycles
    read the file. *)
Lemma mock_not_utf8_runs_on :
  mock five_mock_runs = Some "sample_mock.json" /\
  (forall i, read_mock mock_latin1 "sample_mock.json" i = MockNotUtf8) /\
  state (scheduler_loop five_mock_runs mock_latin1 ["ip"] ∅) = Done /\
  runs (scheduler_loop five_mock_runs mock_latin1 ["ip"] ∅) = 5 /\
  occurrences is_fetch (trace (scheduler_loop five_mock_runs mock_latin1 ["ip"] ∅)) =
    5%nat /\
  trace (scheduler_loop five_mock_runs mock_latin1 ["ip"] ∅) =
    [ LoadMock "sample_mock.json"; PrintError UnexpectedError; Sleep 60;
      LoadMock "sample_mock.json"; PrintError UnexpectedError; Sleep 60;
      LoadMock "sample_mock.json"; PrintError UnexpectedError; Sleep 60;
      LoadMock "sample_mock.json"; PrintError UnexpectedError; Sleep 60;
      LoadMock "sample_mock.json"; PrintError UnexpectedError ].
Proof.
  split; [reflexivity|]. split; [intros i; reflexivity|].
  split; [by_vm|]. split; [by_vm|]. split; by_vm.
Qed.

(** C8. In live mode, a cycle [k] whose request is sent and answered with a
    body that is not valid JSON ends in the first handler: the error is
    logged as a network or API error, nothing is presented or appended, the
    file store is left alone, and the loop goes on.
    - Entered at cycle [k], the loop prints what this cycle prints, pauses,
      and then does what it does entered at cycle [k + 1], when runs remain
      and the pause returns; it ends by its counter when this was the last
      run.
    - In a whole run that nothing else stops (a history file that is not in
      a missing directory, a pause that the platform takes), the trace holds
      the lines of this cycle after exactly [k] earlier calls to the
      endpoint, followed by the pause and the call of cycle [k + 1] when
      runs remain and by nothing when this was the last run; the run makes
      all its [count] calls and ends by its counter. *)
Theorem live_invalid_json_recoverable a e fields fs k status :
  given (mock a) = false ->
  url_accepted e (api_url a) = true -> 0 < timeout a ->
  0 <= k < count a ->
  http_get e (api_url a) (timeout a) k = HttpResponse status None ->
  let out := announce a k ++
             [FetchLive (api_url a) (timeout a); PrintError NetworkApiError] in
  (forall fs', cycle a e fields k fs' = (out, fs', Continue)) /\
  occurrences is_present out = 0%nat /\
  occurrences is_persist out = 0%nat /\
  (forall fs',
     (k + 1 < count a -> pause_returns a e = true ->
      trace (loop a e fields k fs') =
        out ++ pause a :: trace (loop a e fields (k + 1) fs') /\
      state (loop a e fields k fs') = state (loop a e fields (k + 1) fs') /\
      runs (loop a e fields k fs') = runs (loop a e fields (k + 1) fs') /\
      files (loop a e fields k fs') = files (loop a e fields (k + 1) fs')) /\
     (k + 1 = count a ->
      trace (loop a e fields k fs') = out /\
      state (loop a e fields k fs') = Done /\
      runs (loop a e fields k fs') = count a /\
      files (loop a e fields k fs') = fs')) /\
  (history_reachable a fs -> (1 < count a -> pause_returns a e = true) ->
   state (scheduler_loop a e fields fs) = Done /\
   runs (scheduler_loop a e fields fs) = count a /\
   occurrences is_fetch (trace (scheduler_loop a e fields fs)) = Z.to_nat (count a) /\
   exists before after,
     trace (scheduler_loop a e fields fs) = before ++ out ++ after /\
     occurrences is_fetch before = Z.to_nat k /\
     (k + 1 < count a ->
      exists rest,
        after = pause a :: announce a (k + 1) ++
                FetchLive (api_url a) (timeout a) :: rest) /\
     (k + 1 = count a -> after = [])).
Proof.
  intros Hlive Hurl Htime Hk Hget out.
  assert (Hsrc : exists x, (source_call a e k).2 = Raise x /\
            (source_call a e k).1 = FetchLive (api_url a) (timeout a) /\
            handler x = (PrintError NetworkApiError, Continue)).
  { unfold source_call, fetch_live. rewrite Hlive, Hurl, Hget. cbn [fst snd negb].
    destruct (Z.leb_spec (timeout a) 0) as [|_]; [lia|].
    destruct ((400 <=? status)%Z && (status <? 600)%Z);
      eexists; (split; [reflexivity|]); split; reflexivity. }
  destruct Hsrc as (x & Hx & Hev & Hh).
  assert (Hc : forall fs', cycle a e fields k fs' = (out, fs', Continue)).
  { intros fs'. pose proof (cycle_source_raises a e fields k fs' x Hx) as Hc.
    by rewrite Hh, Hev in Hc. }
  assert (Hloop : forall fs',
     (k + 1 < count a -> pause_returns a e = true ->
      trace (loop a e fields k fs') =
        out ++ pause a :: trace (loop a e fields (k + 1) fs') /\
      state (loop a e fields k fs') = state (loop a e fields (k + 1) fs') /\
      runs (loop a e fields k fs') = runs (loop a e fields (k + 1) fs') /\
      files (loop a e fields k fs') = files (loop a e fields (k + 1) fs')) /\
     (k + 1 = count a ->
      trace (loop a e fields k fs') = out /\
      state (loop a e fields k fs') = Done /\
      runs (loop a e fields k fs') = count a /\
      files (loop a e fields k fs') = fs')).
  { intros fs'. split.
    - intros Hmore Hp.
      rewrite (loop_next a e fields k fs' out fs' Hmore Hp (Hc fs')).
      cbn [prepend trace state runs files]. by rewrite <- app_assoc.
    - intros Hlast.
      rewrite (loop_last a e fields k fs' out fs' ltac:(lia) ltac:(lia) (Hc fs')).
      cbn [trace state runs files]. repeat split. lia. }
  split; [exact Hc|].
  split; [subst out; by rewrite occurrences_app, occurrences_announce|].
  split; [subst out; by rewrite occurrences_app, occurrences_announce|].
  split; [exact Hloop|].
  intros Hreach Hpause. unfold scheduler_loop.
  assert (Hgo : forall i fs', history_reachable a fs' ->
            (cycle a e fields i fs').2 = Continue /\
            history_reachable a (cycle a e fields i fs').1.2).
  { intros i fs' Hr. split; [|by apply cycle_keeps_reachable].
    destruct (cycle a e fields i fs').2 eqn:Hv; [reflexivity|].
    destruct (cycle_break_cause a e fields i fs' Hv) as [(y & Hy & Hb) | [Hs Hp]].
    - revert Hy Hb. unfold source_call. rewrite Hlive. cbn [snd]. unfold fetch_live.
      repeat case_match; intros [= <-]; discriminate.
    - by destruct (Hr Hs). }
  assert (Hn : Z.to_nat (count a - 0) = S (pred (Z.to_nat (count a)))) by lia.
  destruct (loop_runs_to_count a e fields (history_reachable a) is_fetch 1
              (pred (Z.to_nat (count a))) 0 fs Hn) as (Hs & Hr & Hf & _).
  { intros Hmany. apply Hpause. lia. }
  { exact Hreach. }
  { intros i fs' _ Hinv. destruct (Hgo i fs' Hinv) as [Hv Hi].
    split; [exact Hv|]. split; [apply cycle_fetches_once | exact Hi]. }
  split; [exact Hs|]. split; [exact Hr|].
  split; [rewrite Hf, occurrences_single; unfold pause; cbn; lia|].
  destruct (loop_reaches a e fields (history_reachable a) k (Z.to_nat (k - 0)) 0 fs eq_refl)
    as (before & fs_k & Hi & Ht & _ & _ & _ & Hb); [lia | | exact Hreach | |].
  { intros Hpos. apply Hpause. lia. }
  { intros i fs' _ Hinv. by apply Hgo. }
  destruct (Hloop fs_k) as [Hnext Hend].
  destruct (decide (k + 1 < count a)) as [Hmore | Hlast].
  - destruct (Hnext Hmore (Hpause ltac:(lia))) as (Htr & _).
    exists before, (pause a :: trace (loop a e fields (k + 1) fs_k)).
    split; [by rewrite Ht, Htr|]. split; [rewrite Hb; lia|].
    split; [|lia]. intros _.
    rewrite loop_unfold, decide_True by lia.
    pose proof (cycle_cases a e fields (k + 1) fs_k) as Hcases.
    assert (Hhead : exists rest, (cycle a e fields (k + 1) fs_k).1.1 =
              announce a (k + 1) ++ FetchLive (api_url a) (timeout a) :: rest).
    { assert (Hfl : (source_call a e (k + 1)).1 = FetchLive (api_url a) (timeout a))
        by (unfold source_call; by rewrite Hlive).
      destruct Hcases
        as [(y & _ & ->) | [(j & y & _ & _ & ->) | [(j & d & _ & _ & _ & ->)
           | [(j & d & _ & _ & _ & _ & ->) | [(j & d & fs' & y & _ & _ & _ & _ & _ & ->)
           | [(j & d & fs' & _ & _ & _ & _ & _ & _ & ->)
           | (j & d & fs' & _ & _ & _ & _ & _ & _ & ->)]]]]]];
        cbn [fst snd]; rewrite Hfl; eauto. }
    destruct Hhead as [rest Hrest].
    destruct (cycle a e fields (k + 1) fs_k) as [[out' fs'] v]. cbn [fst] in Hrest.
    subst out'. destruct v.
    + destruct (k + 1 + 1 >=? count a)%Z; [|destruct (pause_returns a e)];
        cbn [trace prepend]; rewrite <- ?app_assoc; cbn [app]; eauto.
    + cbn [trace]. eauto.
  - destruct (Hend ltac:(lia)) as (Htr & _).
    exists before, []. split; [by rewrite Ht, Htr, app_nil_r|].
    split; [rewrite Hb; lia|]. split; [lia | reflexivity].
Qed.

Lemma live_invalid_json_recoverable_witness :
  cycle three_runs garbled_once ["ip"] 0 ∅ =
    ([ PrintRunning 1 3; FetchLive "https://ipapi.co/json/" 10;
       PrintError NetworkApiError ], ∅, Continue) /\
  trace (loop three_runs garbled_once ["ip"] 0 ∅) =
    [ PrintRunning 1 3; FetchLive "https://ipapi.co/json/" 10;
      PrintError NetworkApiError; Sleep 1 ] ++
    trace (loop three_runs garbled_once ["ip"] 1 ∅) /\
  state (scheduler_loop three_runs garbled_once ["ip"] ∅) = Done /\
  occurrences is_fetch (trace (scheduler_loop three_runs garbled_once ["ip"] ∅)) = 3%nat.
Proof.
  destruct (live_invalid_json_recoverable three_runs garbled_once ["ip"] ∅ 0 200)
    as (H1 & _ & _ & H2 & H3).
  - reflexivity.
  - reflexivity.
  - reflexivity.
  - cbn. lia.
  - reflexivity.
  - destruct (proj1 (H2 ∅)) as (Ht & _); [cbn; lia | reflexivity |].
    destruct H3 as (Hs & _ & Hf & _); [intros _; discriminate | reflexivity |].
    split; [apply H1|]. split; [exact Ht|]. split; [exact Hs | exact Hf].
Defined.

(** After the garbled first reply the two remaining cycles run as usual. *)
Example garbled_once_trace :
  state (scheduler_loop three_runs garbled_once ["ip"] ∅) = Done /\
  runs (scheduler_loop three_runs garbled_once ["ip"] ∅) = 3 /\
  trace (scheduler_loop three_runs garbled_once ["ip"] ∅) =
  [ PrintRunning 1 3; FetchLive "https://ipapi.co/json/" 10;
    PrintError NetworkApiError; Sleep 1;
    PrintRunning 2 3; FetchLive "https://ipapi.co/json/" 10;
    PrintSelected [("Public IP Address", JStr "1.2.3.4")]; PrintAppended "h.csv"; Sleep 1;
    PrintRunning 3 3; FetchLive "https://ipapi.co/json/" 10;
    PrintSelected [("Public IP Address", JStr "1.2.3.4")]; PrintAppended "h.csv" ].
Proof. split; [by_vm|]. split; by_vm. Qed.

(** A decode error of the mock file, by contrast, stops the loop. *)
Example mock_invalid_json_aborts :
  state (scheduler_loop five_mock_runs mock_garbled ["ip"] ∅) = Aborted /\
  trace (scheduler_loop five_mock_runs mock_garbled ["ip"] ∅) =
    [ LoadMock "sample_mock.json"; PrintError InvalidJson ].
Proof. split; by_vm. Qed.

(** [main] exits with status 1 without fields, else runs the loop. *)
Example main_exit_codes a e fs :
  main a e [] fs = NoFields /\ exit_code (main a e [] fs) = 1 /\
  forall f fields,
    main a e (f :: fields) fs = Finished (scheduler_loop a e (f :: fields) fs).
Proof. repeat split. Qed.

(** A record with a lone surrogate: a strict console refuses its line, so
    the cycle ends before the history is written; a console that takes the
    line lets the cycle reach the history writer, which writes the header
    in the first cycle and raises on the data row in each. *)
Example lone_surrogate_cycles :
  trace (scheduler_loop three_runs
           {| url_accepted := url_accepted surrogate_world;
              http_get := http_get surrogate_world;
              read_mock := read_mock surrogate_world;
              utcnow := utcnow surrogate_world;
              stdout_errors := Strict;
              sleep_max := sleep_max surrogate_world |} ["city"; "ip"] ∅) =
  [ PrintRunning 1 3; FetchLive "https://ipapi.co/json/" 10;
    PrintInterrupted [("City", JStr "N/A")]; PrintError UnexpectedError; Sleep 1;
    PrintRunning 2 3; FetchLive "https://ipapi.co/json/" 10;
    PrintInterrupted [("City", JStr "N/A")]; PrintError UnexpectedError; Sleep 1;
    PrintRunning 3 3; FetchLive "https://ipapi.co/json/" 10;
    PrintInterrupted [("City", JStr "N/A")]; PrintError UnexpectedError ] /\
  occurrences is_persist
    (trace (scheduler_loop three_runs surrogate_world ["city"; "ip"] ∅)) = 0%nat /\
  occurrences is_present
    (trace (scheduler_loop three_runs surrogate_world ["city"; "ip"] ∅)) = 3%nat /\
  rows_at (files (scheduler_loop three_runs surrogate_world ["city"; "ip"] ∅)) "h.csv" =
    Some [ [JStr "timestamp"; JStr "city"; JStr "ip"] ].
Proof. split; [by_vm|]. split; [by_vm|]. split; by_vm. Qed.

(** An interval beyond what [time.sleep] takes: the first cycle runs, the
    sleep raises, and the program ends there with status 1. *)
Example sleep_overflow :
  trace (scheduler_loop two_runs_forever online ["ip"] ∅) =
    [ FetchLive "https://ipapi.co/json/" 10;
      PrintSelected [("Public IP Address", JStr "1.2.3.4")]; Sleep 9223372037 ] /\
  state (scheduler_loop two_runs_forever online ["ip"] ∅) = Crashed /\
  runs (scheduler_loop two_runs_forever online ["ip"] ∅) = 1 /\
  exit_code (main two_runs_forever online ["ip"] ∅) = 1.
Proof. split; [by_vm|]. split; [by_vm|]. split; by_vm. Qed.

(** A timeout that is not positive: [requests] raises before it sends, and
    the last clause reports it. *)
Example timeout_not_positive :
  cycle {| mock := None; manual_ip := None; interval := 0; count := 1;
           save_history := None; api_url := "https://ipapi.co/json/";
           timeout := 0; no_print_time := true |} online ["ip"] 0 ∅ =
  ([ FetchLive "https://ipapi.co/json/" 0; PrintError UnexpectedError ], ∅, Continue).
Proof. by_vm. Qed.

(** With no run requested the loop body is never entered. *)
Example no_run_requested a e fields fs :
  count a <= 0 ->
  scheduler_loop a e fields fs = {| trace := []; files := fs; runs := 0; state := Done |}.
Proof. intros H. by apply loop_exhausted. Qed.

End SchedulerClaims.

(* ===================================================================== *)
(** ** More properties of the normalizer and the presenter                *)
(* ===================================================================== *)

Section NormalizerMore.

Implicit Types (data n : gmap string json) (s f : string) (v : json).

Lemma ip_checkable_spec v :
  ip_checkable v = false <-> truthy v = true /\ number_or_bool v = true.
Proof.
  unfold ip_checkable. destruct (truthy v) eqn:Ht; cbn [negb orb].
  - destruct v; cbn; split; (tauto || intros [? ?] || intros ?); try discriminate;
      try (split; reflexivity); try reflexivity.
  - split; [discriminate | intros [? _]; discriminate].
Qed.

(** X1. The only exception of [normalize_data] is the [TypeError] of [":" in
    ip], and it is raised exactly when the resolved ip is a number other
    than zero or the boolean true. *)
Theorem normalize_data_raises_exactly data :
  (normalize_data data = Raise TypeError <->
   truthy (resolved_ip data) = true /\ number_or_bool (resolved_ip data) = true) /\
  (forall x, normalize_data data = Raise x -> x = TypeError).
Proof.
  split; [|intros x; apply normalize_data_raises_type_error].
  rewrite <- ip_checkable_spec. split.
  - intros H. destruct (ip_checkable (resolved_ip data)) eqn:E; [|reflexivity].
    apply normalize_data_returns in E as [n Hn]. congruence.
  - apply normalize_data_raises.
Qed.

(** X2. [normalize_data] reads nothing but the nineteen raw keys, and a key
    that holds null counts as a missing one: two records with the same
    [get] on these keys are normalized alike. *)
Theorem normalize_data_reads_raw_keys data1 data2 :
  (forall k, In k raw_keys -> py_get data1 k = py_get data2 k) ->
  normalize_data data1 = normalize_data data2.
Proof.
  intros H. unfold normalize_data.
  repeat match goal with
         | |- context [py_get data1 ?k] =>
             rewrite (H k) by (cbn; tauto)
         end.
  reflexivity.
Qed.

Lemma normalize_data_reads_raw_keys_witness :
  normalize_data (<["hostname" := JStr "h"]> (<["isp" := JNull]> ip_city)) =
  normalize_data ip_city.
Proof.
  apply (normalize_data_reads_raw_keys
           (<["hostname" := JStr "h"]> (<["isp" := JNull]> ip_city)) ip_city).
  intros k Hk. cbn in Hk.
  repeat (destruct Hk as [<- | Hk]; [reflexivity|]). destruct Hk.
Defined.

(** The override keeps the keys of a record that has an ip and a version. *)
Lemma apply_manual_ip_dom (manual : option string) n :
  dom n = canonical_keys -> dom (apply_manual_ip manual n) = canonical_keys.
Proof.
  intros Hdom. unfold apply_manual_ip. destruct manual as [s|]; [|exact Hdom].
  destruct (negb (String.eqb s "")); [|exact Hdom].
  rewrite !dom_insert_L, Hdom. unfold canonical_keys. set_solver.
Qed.

Lemma override_version_matches data n (manual : option string) :
  normalize_data data = Ok n ->
  version_matches_ip (apply_manual_ip manual n).
Proof.
  intros Hn. unfold version_matches_ip.
  assert (Hplain : ip_version (py_get n "ip") = Ok (py_get n "version")).
  { destruct (ip_checkable (resolved_ip data)) eqn:Hc.
    - destruct (ip_version_checkable _ Hc) as [c Hv].
      destruct (normalize_data_fields _ _ Hv) as (n' & Hn' & _ & Hver & Hf).
      rewrite Hn in Hn'. injection Hn' as <-.
      unfold py_get. rewrite Hver, (Hf "ip" ["ip"; "query"; "ip_address"]) by (by left).
      cbn [default from_option id]. by rewrite <- resolved_ip_or_chain.
    - rewrite (normalize_data_raises _ Hc) in Hn. discriminate. }
  unfold apply_manual_ip. destruct manual as [s|]; [|exact Hplain].
  destruct (String.eqb s "") eqn:Hs; cbn [negb]; [exact Hplain|].
  unfold py_get. rewrite lookup_insert_eq, lookup_insert_ne, lookup_insert_eq by done.
  cbn [default from_option id]. apply ip_version_str.
Qed.

Lemma normalize_data_dom data n :
  normalize_data data = Ok n -> dom n = canonical_keys.
Proof.
  intros Hn.
  assert (Hc : ip_checkable (resolved_ip data) = true)
    by (apply normalize_data_returns; eauto).
  destruct (ip_version_checkable _ Hc) as [c Hv].
  destruct (normalize_data_fields _ _ Hv) as (n' & Hn' & Hdom & _).
  rewrite Hn in Hn'. by injection Hn' as <-.
Qed.

(** X3. After [normalize_data], and after the manual override on top of it,
    the version of the record is the one its own ip gives, and the record
    still has exactly the twelve canonical keys. *)
Theorem version_always_matches_ip data n (manual : option string) :
  normalize_data data = Ok n ->
  version_matches_ip (apply_manual_ip manual n) /\
  dom (apply_manual_ip manual n) = canonical_keys.
Proof.
  intros Hn. split; [by apply (override_version_matches data)|].
  apply apply_manual_ip_dom. by apply (normalize_data_dom data).
Qed.

Lemma version_always_matches_ip_witness :
  exists n, normalize_data v6_query = Ok n /\
    version_matches_ip (apply_manual_ip (Some "1.2.3.4") n).
Proof.
  destruct (normalize_data_fields v6_query (JStr "IPv6")) as (n & Hn & _);
    [reflexivity|].
  exists n. split; [exact Hn|].
  exact (proj1 (version_always_matches_ip v6_query n (Some "1.2.3.4") Hn)).
Defined.

(** X4. Two pairs of fields share a raw key. When the raw [org] is true, the
    record's isp is its org; when the raw [country] is true and there is no
    true [country_name], the record's country and country code are both
    the raw [country]. *)
Theorem normalize_data_shared_keys data n :
  normalize_data data = Ok n ->
  (truthy (py_get data "org") = true ->
   n !! "isp" = Some (py_get data "org") /\ n !! "org" = Some (py_get data "org")) /\
  (truthy (py_get data "country_name") = false ->
   truthy (py_get data "country") = true ->
   n !! "country" = Some (py_get data "country") /\
   n !! "country_code" = Some (py_get data "country")).
Proof.
  intros Hn.
  assert (Hc : ip_checkable (resolved_ip data) = true)
    by (apply normalize_data_returns; eauto).
  destruct (normalize_data_resolution data Hc) as (n' & Hn' & Hf).
  rewrite Hn in Hn'. injection Hn' as <-.
  split.
  - intros Horg.
    rewrite (Hf "isp" ["org"; "isp"]), (Hf "org" ["org"]) by (cbn; tauto).
    cbn [or_chain]. by rewrite Horg.
  - intros Hname Hcountry.
    rewrite (Hf "country" ["country_name"; "country"]),
            (Hf "country_code" ["country"; "country_code"]) by (cbn; tauto).
    cbn [or_chain]. by rewrite Hname, Hcountry.
Qed.

Lemma normalize_data_shared_keys_witness :
  exists n, normalize_data org_and_country = Ok n /\
    (n !! "isp" = Some (JStr "ACME") /\ n !! "org" = Some (JStr "ACME")) /\
    (n !! "country" = Some (JStr "FR") /\ n !! "country_code" = Some (JStr "FR")).
Proof.
  destruct (normalize_data_fields org_and_country (JStr "IPv4")) as (n & Hn & _);
    [reflexivity|].
  exists n. split; [exact Hn|].
  destruct (normalize_data_shared_keys org_and_country n Hn) as [H1 H2].
  split; [apply H1; reflexivity | apply H2; reflexivity].
Defined.

(** A field name outside the label table is its own label. *)
Lemma label_of_unknown f :
  f ∉ canonical_keys -> label_of FIELD_LABELS f = f.
Proof.
  intros Hf. unfold canonical_keys in Hf.
  assert (Hne : forall k, k ∈ canonical_keys -> String.eqb k f = false).
  { intros k Hk. apply String.eqb_neq. intros ->. exact (Hf Hk). }
  unfold FIELD_LABELS, label_of.
  rewrite !Hne; [reflexivity | unfold canonical_keys; set_solver..].
Qed.

(** X5. What the presenter shows of a normalized record: for a field outside
    the twelve canonical ones, the field name itself with "N/A"; and for
    the version never "N/A" but one of the two version strings. *)
Theorem print_selected_normalized data n :
  normalize_data data = Ok n ->
  (forall fields, Forall (fun f => f ∉ canonical_keys) fields ->
     print_selected n fields = map (fun f => (f, JStr "N/A")) fields) /\
  (print_selected n ["version"] = [("IP Version", JStr "IPv4")] \/
   print_selected n ["version"] = [("IP Version", JStr "IPv6")]).
Proof.
  intros Hn.
  assert (Hc : ip_checkable (resolved_ip data) = true)
    by (apply normalize_data_returns; eauto).
  destruct (ip_version_checkable _ Hc) as [c Hv].
  destruct (normalize_data_fields _ _ Hv) as (n' & Hn' & Hdom & Hver & _).
  rewrite Hn in Hn'. injection Hn' as <-.
  split.
  - intros fields Hall. unfold print_selected. apply map_ext_in.
    intros f Hin. rewrite Forall_forall in Hall.
    assert (Hf : f ∉ canonical_keys) by (apply Hall; by apply list_elem_of_In).
    rewrite (label_of_unknown f Hf).
    assert (Hnone : n !! f = None) by (apply not_elem_of_dom; by rewrite Hdom).
    unfold py_get. by rewrite Hnone.
  - unfold print_selected, py_get. cbn [map]. rewrite Hver. cbn [default from_option id].
    destruct c; [right | left]; reflexivity.
Qed.

Lemma print_selected_normalized_witness :
  exists n, normalize_data ip_city = Ok n /\
    print_selected n ["hostname"; "as"] = [("hostname", JStr "N/A"); ("as", JStr "N/A")].
Proof.
  destruct (normalize_data_fields ip_city (JStr "IPv4")) as (n & Hn & _);
    [reflexivity|].
  exists n. split; [exact Hn|].
  apply (proj1 (print_selected_normalized ip_city n Hn) ["hostname"; "as"]).
  repeat constructor; unfold canonical_keys; intros H;
    repeat (apply elem_of_union in H as [H | H]);
    apply elem_of_singleton in H; discriminate.
Defined.

(** Only null is shown as "N/A": a value that is merely false, a zero or an
    empty string, is printed as it is, and no line ever carries null. *)
Lemma print_selected_values data fields :
  length (print_selected data fields) = length fields /\
  Forall (fun line => line.2 <> JNull) (print_selected data fields) /\
  forall i f, fields !! i = Some f ->
    exists shown, print_selected data fields !! i = Some (label_of FIELD_LABELS f, shown) /\
      (py_get data f <> JNull -> shown = py_get data f) /\
      (py_get data f = JNull -> shown = JStr "N/A").
Proof.
  unfold print_selected. split; [by rewrite length_map|]. split.
  - apply Forall_forall. intros line Hin.
    apply list_elem_of_In, in_map_iff in Hin as (f & <- & _). cbn [snd].
    destruct (py_get data f); cbn [is_null]; discriminate.
  - intros i f Hi. rewrite list_lookup_fmap, Hi. cbn [fmap option_fmap option_map].
    eexists. split; [reflexivity|].
    split; intros H; destruct (py_get data f); cbn [is_null]; congruence.
Qed.

End NormalizerMore.

(* ===================================================================== *)
(** ** More properties of the history writer                              *)
(* ===================================================================== *)

Section HistoryMore.

Implicit Types (data : gmap string json) (fields : list string) (fs : store).

(** What a call leaves at its path, returned or not. *)
Lemma append_history_csv_grows now path fields data fs :
  (tracked fs path = true ->
   exists added,
     rows_at (append_history_csv now path fields data fs).1 path =
       Some (default [] (rows_at fs path) ++ added) /\
     Forall (fun row => length row = S (length fields)) added /\
     ((append_history_csv now path fields data fs).2 = None ->
      length added = (if isfile fs path then 1 else 2)%nat) /\
     ((append_history_csv now path fields data fs).2 <> None ->
      added = [] \/
      (isfile fs path = false /\ added = [writeheader ("timestamp" :: fields)]))) /\
  (tracked fs path = false ->
   (append_history_csv now path fields data fs).1 !! path = fs !! path).
Proof.
  assert (Hh : length (writeheader ("timestamp" :: fields)) = S (length fields))
    by (unfold writeheader; by rewrite length_map).
  assert (Hd : length (data_row now fields data) = S (length fields))
    by (unfold data_row; cbn [length]; by rewrite length_map).
  rewrite append_history_csv_cases. unfold tracked, rows_at, isfile.
  destruct (fs !! path) as [[rows | | err]|] eqn:Hp; (split; [|try discriminate]).
  - intros _. destruct (record_encodes fields data); cbn [fst snd];
      rewrite lookup_insert_eq.
    + exists [data_row now fields data]. split; [reflexivity|].
      split; [by repeat constructor|]. split; [reflexivity | done].
    + exists []. split; [by rewrite app_nil_r|]. split; [constructor|].
      split; [discriminate | by left].
  - discriminate.
  - intros _. destruct (record_encodes fields data); cbn [fst]; apply lookup_insert_eq.
  - discriminate.
  - intros _. exact Hp.
  - intros _. destruct (header_encodes fields); [destruct (record_encodes fields data)|];
      cbn [fst snd]; rewrite lookup_insert_eq; cbn [default from_option id app].
    + exists [writeheader ("timestamp" :: fields); data_row now fields data].
      split; [reflexivity|]. split; [by repeat constructor|].
      split; [reflexivity | done].
    + exists [writeheader ("timestamp" :: fields)].
      split; [reflexivity|]. split; [by repeat constructor|].
      split; [discriminate | by right].
    + exists []. split; [reflexivity|]. split; [constructor|].
      split; [discriminate | by left].
Qed.

(** X6. [append_history_csv] returns exactly when the path can be opened and
    what it has to write holds no lone surrogate: the values of the record
    for the fields and, where there is no file yet, the field names of the
    header. On a path that holds complete rows, or nothing, it leaves every
    row the file had where it was and adds rows at the end: when it
    returns, the data row alone where the file existed, even empty or under
    another header, and the header and the data row where it did not; when
    it raises, nothing, or the header alone on a path that held no file.
    Every row it adds has one column more than there are fields. A file
    that is not made of complete rows stays what it is, and no other file
    changes. *)
Theorem append_history_csv_adds_rows now path fields data fs :
  ((append_history_csv now path fields data fs).2 = None <->
   writable fs path = true /\
   (isfile fs path = false -> header_encodes fields = true) /\
   record_encodes fields data = true) /\
  (tracked fs path = true ->
   exists added,
     rows_at (append_history_csv now path fields data fs).1 path =
       Some (default [] (rows_at fs path) ++ added) /\
     Forall (fun row => length row = S (length fields)) added /\
     ((append_history_csv now path fields data fs).2 = None ->
      length added = (if isfile fs path then 1 else 2)%nat) /\
     ((append_history_csv now path fields data fs).2 <> None ->
      added = [] \/
      (isfile fs path = false /\ added = [writeheader ("timestamp" :: fields)]))) /\
  (tracked fs path = false ->
   (append_history_csv now path fields data fs).1 !! path = fs !! path) /\
  (forall p, p <> path ->
   (append_history_csv now path fields data fs).1 !! p = fs !! p).
Proof.
  split; [|split; [|split]].
  - rewrite append_history_csv_cases. unfold writable, isfile.
    destruct (fs !! path) as [[rows | | err]|] eqn:Hp.
    + destruct (record_encodes fields data); cbn [snd]; split; try done.
      * by intros (_ & _ & ?).
    + destruct (record_encodes fields data); cbn [snd]; split; try done.
      * by intros (_ & _ & ?).
    + cbn [snd]. split; [discriminate | by intros (? & _)].
    + destruct (header_encodes fields); [destruct (record_encodes fields data)|];
        cbn [snd]; split; try done.
      * by intros (_ & _ & ?).
      * intros (_ & H & _). by specialize (H eq_refl).
  - apply append_history_csv_grows.
  - apply append_history_csv_grows.
  - intros p Hne. by apply append_history_csv_frame.
Qed.

Lemma append_history_csv_adds_rows_witness :
  exists added,
    rows_at (append_history_csv t0 "old.csv" ["ip"; "city"] ip_city stale_history).1
      "old.csv" = Some ([[JStr "timestamp"; JStr "isp"]] ++ added) /\
    length added = 1%nat /\
    Forall (fun row => length row = 3%nat) added.
Proof.
  destruct (proj1 (proj2 (append_history_csv_adds_rows t0 "old.csv" ["ip"; "city"] ip_city
                     stale_history))) as (added & H1 & H2 & H3 & _); [reflexivity|].
  exists added. split; [exact H1|]. split; [by apply H3 | exact H2].
Defined.

End HistoryMore.

(* ===================================================================== *)
(** ** More properties of the scheduler loop                              *)
(* ===================================================================== *)

Section SchedulerMore.

Variable a : args.
Variable e : env.
Variable fields : list string.

Implicit Types (rc i k : Z) (fs : store) (x : exn) (tr out : list event).

(** A property of runs that holds of nothing done, of each cycle and of
    each pause, and of two stretches put end to end, holds of the loop. *)
Lemma loop_trace_ind (P : store -> list event -> store -> Prop) :
  (forall fs, P fs [] fs) ->
  (forall rc fs, P fs (cycle a e fields rc fs).1.1 (cycle a e fields rc fs).1.2) ->
  (forall fs, P fs [pause a] fs) ->
  (forall fs1 tr1 fs2 tr2 fs3,
     P fs1 tr1 fs2 -> P fs2 tr2 fs3 -> P fs1 (tr1 ++ tr2) fs3) ->
  forall rc fs, P fs (trace (loop a e fields rc fs)) (files (loop a e fields rc fs)).
Proof.
  intros Hnil Hcycle Hpause Happ rc fs.
  remember (Z.to_nat (count a - rc)) as n eqn:Hn.
  revert rc fs Hn. induction n as [|n IH]; intros rc fs Hn.
  - rewrite loop_exhausted by lia. apply Hnil.
  - pose proof (Hcycle rc fs) as Hc.
    destruct (cycle a e fields rc fs) as [[out fs'] v] eqn:E. cbn [fst snd] in Hc.
    destruct v.
    + destruct (decide (rc + 1 < count a)) as [Hmore | Hlast].
      * destruct (pause_returns a e) eqn:Hp.
        -- rewrite (loop_next a e fields rc fs out fs') by done.
           cbn [prepend trace files].
           apply (Happ fs (out ++ [pause a]) fs'); [|apply IH; lia].
           apply (Happ fs out fs'); [exact Hc | apply Hpause].
        -- rewrite (loop_crash a e fields rc fs out fs') by done.
           cbn [trace files].
           apply (Happ fs out fs'); [exact Hc | apply Hpause].
      * rewrite (loop_last a e fields rc fs out fs') by (done || lia). exact Hc.
    + rewrite (loop_break a e fields rc fs out fs') by (done || lia). exact Hc.
Qed.

Lemma occurrences_sleep_pause : occurrences is_sleep [pause a] = 1%nat.
Proof. reflexivity. Qed.

Lemma occurrences_fetch_pause : occurrences is_fetch [pause a] = 0%nat.
Proof. reflexivity. Qed.

(** The books of a run entered at [rc]. *)
Lemma loop_accounting_from (n : nat) :
  forall rc fs,
    Z.to_nat (count a - rc) = n ->
    rc <= runs (loop a e fields rc fs) <= Z.max rc (count a) /\
    occurrences is_fetch (trace (loop a e fields rc fs)) =
      (Z.to_nat (runs (loop a e fields rc fs) - rc) +
       aborted (state (loop a e fields rc fs)))%nat /\
    occurrences is_sleep (trace (loop a e fields rc fs)) =
      (pred (occurrences is_fetch (trace (loop a e fields rc fs))) +
       crashed (state (loop a e fields rc fs)))%nat /\
    (state (loop a e fields rc fs) = Done ->
     runs (loop a e fields rc fs) = Z.max rc (count a)) /\
    (state (loop a e fields rc fs) = Aborted ->
     runs (loop a e fields rc fs) < count a) /\
    (state (loop a e fields rc fs) = Crashed ->
     rc < runs (loop a e fields rc fs) < count a /\ pause_returns a e = false).
Proof.
  induction n as [|n IH]; intros rc fs Hn.
  - rewrite loop_exhausted by lia. cbn [runs trace state aborted crashed].
    rewrite Z.sub_diag.
    split; [lia|]. split; [reflexivity|]. split; [reflexivity|].
    split; [intros _; lia|]. split; discriminate.
  - destruct (cycle_fetches_once a e fields rc fs) as [Hf Hs].
    destruct (cycle a e fields rc fs) as [[out fs'] v] eqn:E. cbn [fst snd] in Hf, Hs.
    destruct v.
    + destruct (decide (rc + 1 < count a)) as [Hmore | Hlast].
      * destruct (pause_returns a e) eqn:Hp.
        -- rewrite (loop_next a e fields rc fs out fs') by done.
           destruct (IH (rc + 1) fs' ltac:(lia)) as (Hr & Hfr & Hsr & Hd & Ha & Hc).
           cbn [prepend trace files runs state].
           rewrite !occurrences_app, Hf, Hs, occurrences_sleep_pause,
             occurrences_fetch_pause, Hsr, Hfr.
           assert (Hpos : (1 <= Z.to_nat (runs (loop a e fields (rc + 1) fs') - (rc + 1)) +
                           aborted (state (loop a e fields (rc + 1) fs')))%nat).
           { destruct (state (loop a e fields (rc + 1) fs')) eqn:Hst; cbn [aborted].
             - specialize (Hd eq_refl). lia.
             - lia.
             - destruct (Hc eq_refl) as [Hlt _]. lia. }
           split; [lia|]. split; [lia|]. split; [lia|].
           split; [intros Hst; specialize (Hd Hst); lia|].
           split; [exact Ha|]. intros Hst. destruct (Hc Hst). split; [lia | done].
        -- rewrite (loop_crash a e fields rc fs out fs') by done.
           cbn [trace runs state aborted crashed].
           rewrite !occurrences_app, Hf, Hs, occurrences_sleep_pause,
             occurrences_fetch_pause.
           split; [lia|]. split; [lia|]. split; [reflexivity|].
           split; [discriminate|]. split; [discriminate|]. intros _. split; [lia | done].
      * rewrite (loop_last a e fields rc fs out fs') by (done || lia).
        cbn [trace runs state aborted crashed]. rewrite Hf, Hs.
        split; [lia|]. split; [lia|]. split; [reflexivity|].
        split; [intros _; lia|]. split; discriminate.
    + rewrite (loop_break a e fields rc fs out fs') by (done || lia).
      cbn [trace runs state aborted crashed]. rewrite Hf, Hs.
      split; [lia|]. split; [lia|]. split; [reflexivity|].
      split; [discriminate|]. split; [intros _; lia | discriminate].
Qed.


(** In live mode no failure of the data source is fatal. *)
Lemma live_source_raises rc x :
  given (mock a) = false ->
  (source_call a e rc).2 = Raise x ->
  (handler x).2 = Continue.
Proof.
  intros Hlive. unfold source_call. rewrite Hlive. cbn [snd]. unfold fetch_live.
  repeat case_match; intros [= <-]; reflexivity.
Qed.

Lemma live_cycle_continues rc fs :
  given (mock a) = false ->
  history_reachable a fs ->
  (cycle a e fields rc fs).2 = Continue.
Proof.
  intros Hlive Hr. destruct (source_call a e rc).2 as [j | x] eqn:H.
  - by apply (cycle_source_ok_continues a e fields rc fs j).
  - rewrite (cycle_source_raises a e fields rc fs x H). cbn [snd].
    by apply (live_source_raises rc).
Qed.


(** X10. The loop writes to no file but its history file: every other path of
    the store is left as it was, and without a history file the whole
    store is. *)
Theorem loop_writes_history_only fs :
  (forall p, p <> default "" (save_history a) ->
     files (scheduler_loop a e fields fs) !! p = fs !! p) /\
  (given (save_history a) = false -> files (scheduler_loop a e fields fs) = fs).
Proof.
  unfold scheduler_loop. split.
  - intros p Hp.
    apply (loop_trace_ind (fun fs1 _ fs2 => fs2 !! p = fs1 !! p)); try done.
    + intros rc fs0.
      destruct (cycle_store a e fields rc fs0) as [-> | (_ & d & ->)]; [reflexivity|].
      by apply append_history_csv_frame.
    + intros fs1 tr1 fs2 tr2 fs3 H1 H2. by rewrite H2.
  - intros Hs.
    apply (loop_trace_ind (fun fs1 _ fs2 => fs2 = fs1)); try done.
    + intros rc fs0.
      destruct (cycle_store a e fields rc fs0) as [-> | (Hg & _)]; [reflexivity|].
      congruence.
    + intros fs1 tr1 fs2 tr2 fs3 H1 H2. by rewrite H2.
Qed.

Lemma cycle_events rc :
  forall p : event -> bool,
    (forall k t, p (PrintRunning k t) = false) ->
    (forall path, p (LoadMock path) = false) ->
    (forall url secs, p (FetchLive url secs) = false) ->
    (forall m, p (PrintError m) = false) ->
    occurrences p (announce a rc ++ [(source_call a e rc).1]) = 0%nat /\
    forall x, occurrences p [(handler x).1] = 0%nat.
Proof.
  intros p H1 H2 H3 H4. split.
  - rewrite occurrences_app, occurrences_announce, occurrences_single by done.
    unfold source_call. destruct (given (mock a)); cbn [fst]; by rewrite ?H2, ?H3.
  - intros x. destruct (handler_is_error x) as [m ->].
    by rewrite occurrences_single, H4.
Qed.

Lemma history_grown_app fs1 tr1 fs2 tr2 fs3 :
  history_grown a fields fs1 tr1 fs2 -> history_grown a fields fs2 tr2 fs3 ->
  history_grown a fields fs1 (tr1 ++ tr2) fs3.
Proof.
  unfold history_grown, tracked, rows_at. rewrite occurrences_app.
  intros [T1 U1] [T2 U2]. split.
  - intros Ht. destruct (T1 Ht) as [[E1 P1] | (r1 & R1 & W1 & L1)].
    + rewrite E1 in T2. destruct (T2 Ht) as [[E2 P2] | (r2 & R2 & W2 & L2)].
      * left. split; [by rewrite E2 | lia].
      * right. exists r2. split; [exact R2|]. split; [exact W2 | lia].
    + destruct (fs2 !! default "" (save_history a)) as [[rows2 | |]|] eqn:H2;
        try discriminate.
      injection R1 as ->.
      destruct (T2 eq_refl) as [[E2 P2] | (r2 & R2 & W2 & L2)].
      * right. exists r1. rewrite E2. split; [reflexivity|]. split; [exact W1 | lia].
      * right. exists (r1 ++ r2). rewrite R2. cbn [default from_option id].
        split; [by rewrite app_assoc|]. split; [by apply Forall_app|].
        rewrite length_app. lia.
  - intros Hu. rewrite (U1 Hu) in U2. exact (U2 Hu).
Qed.

Lemma history_grown_cycle rc fs :
  history_grown a fields fs (cycle a e fields rc fs).1.1 (cycle a e fields rc fs).1.2.
Proof.
  assert (Hpre : occurrences is_persist (announce a rc ++ [(source_call a e rc).1]) = 0%nat /\
                 forall x, occurrences is_persist [(handler x).1] = 0%nat)
    by (by apply cycle_events).
  destruct Hpre as [Hpre Hh].
  assert (Hsame : forall tr, occurrences is_persist tr = 0%nat ->
            history_grown a fields fs tr fs).
  { intros tr Htr. split; [intros _; by left | done]. }
  assert (Hcall : forall tr d,
            (occurrences is_persist tr <= 1)%nat ->
            (occurrences is_persist tr = 1%nat ->
             (append_history_csv (utcnow e rc) (default "" (save_history a)) fields d
                fs).2 = None) ->
            history_grown a fields fs tr
              (append_history_csv (utcnow e rc) (default "" (save_history a)) fields d
                 fs).1).
  { intros tr d Hle Hone.
    destruct (append_history_csv_grows (utcnow e rc) (default "" (save_history a))
                fields d fs) as [Ht Hu].
    split; [|exact Hu]. intros Htr. right.
    destruct (Ht Htr) as (added & Hrows & Hw & Hok & _).
    exists added. split; [exact Hrows|]. split; [exact Hw|].
    destruct (occurrences is_persist tr) as [|[|m]] eqn:Hp; [lia | | lia].
    rewrite (Hok (Hone eq_refl)). case_match; lia. }
  destruct (cycle_cases a e fields rc fs)
    as [(x & _ & ->) | [(j & x & _ & _ & ->) | [(j & d & _ & _ & _ & ->)
       | [(j & d & _ & _ & _ & _ & ->) | [(j & d & fs' & x & _ & _ & _ & Hs & Ha & ->)
       | [(j & d & fs' & _ & _ & _ & Hs & Ha & _ & ->)
       | (j & d & fs' & _ & _ & _ & Hs & Ha & _ & ->)]]]]]];
    cbn [fst snd].
  - apply Hsame. by rewrite app_assoc, occurrences_app, Hpre, Hh.
  - apply Hsame. by rewrite app_assoc, occurrences_app, Hpre.
  - apply Hsame. by rewrite app_assoc, occurrences_app, Hpre.
  - apply Hsame. by rewrite app_assoc, occurrences_app, Hpre.
  - pose proof (Hcall (announce a rc ++ [(source_call a e rc).1]
        ++ [PrintSelected (print_selected (apply_manual_ip (manual_ip a) d) fields);
            (handler x).1]) (apply_manual_ip (manual_ip a) d)) as H.
    rewrite Ha in H. destruct (handler_is_error x) as [m Hm]. rewrite Hm in H |- *.
    apply H; rewrite app_assoc, occurrences_app, Hpre, !occurrences_cons, occurrences_nil;
      cbn [is_persist]; [lia | intros; first [lia | done]].
  - pose proof (Hcall (announce a rc ++ [(source_call a e rc).1]
        ++ [PrintSelected (print_selected (apply_manual_ip (manual_ip a) d) fields);
            PrintError UnexpectedError]) (apply_manual_ip (manual_ip a) d)) as H.
    rewrite Ha in H. apply H;
      rewrite app_assoc, occurrences_app, Hpre, !occurrences_cons, occurrences_nil;
      cbn [is_persist]; [lia | intros; first [lia | done]].
  - pose proof (Hcall (announce a rc ++ [(source_call a e rc).1]
        ++ [PrintSelected (print_selected (apply_manual_ip (manual_ip a) d) fields);
            PrintAppended (default "" (save_history a))])
        (apply_manual_ip (manual_ip a) d)) as H.
    rewrite Ha in H. apply H;
      rewrite app_assoc, occurrences_app, Hpre, !occurrences_cons, occurrences_nil;
      cbn [is_persist]; [lia | intros; first [lia | done]].
Qed.

(** X11. The history file only grows. On a path that holds complete rows, or
    nothing yet, a run leaves the path as it was and reports no append, or
    the file holds in the end the rows it had, where they were, followed by
    the rows the run added, each with one column more than there are
    fields, and at least one of them for every append that was reported.
    On a path that holds anything else, what is there stays. *)
Theorem history_only_grows fs :
  (tracked fs (default "" (save_history a)) = true ->
   (files (scheduler_loop a e fields fs) !! default "" (save_history a) =
      fs !! default "" (save_history a) /\
    occurrences is_persist (trace (scheduler_loop a e fields fs)) = 0%nat) \/
   (exists added,
      rows_at (files (scheduler_loop a e fields fs)) (default "" (save_history a)) =
        Some (default [] (rows_at fs (default "" (save_history a))) ++ added) /\
      Forall (fun row => length row = S (length fields)) added /\
      (occurrences is_persist (trace (scheduler_loop a e fields fs)) <= length added)%nat)) /\
  (tracked fs (default "" (save_history a)) = false ->
   files (scheduler_loop a e fields fs) !! default "" (save_history a) =
     fs !! default "" (save_history a)).
Proof.
  unfold scheduler_loop.
  apply (loop_trace_ind (history_grown a fields)).
  - intros fs0. split; [intros _; by left | done].
  - apply history_grown_cycle.
  - intros fs0. split; [intros _; by left | done].
  - apply history_grown_app.
Qed.

Lemma sleeps_app tr1 tr2 : sleeps (tr1 ++ tr2) = sleeps tr1 ++ sleeps tr2.
Proof.
  induction tr1 as [|ev tr1 IH]; [reflexivity|].
  destruct ev; cbn [sleeps app]; by rewrite IH.
Qed.

Lemma sleeps_length tr : length (sleeps tr) = occurrences is_sleep tr.
Proof.
  induction tr as [|ev tr IH]; [reflexivity|].
  change (ev :: tr) with ([ev] ++ tr). rewrite sleeps_app, occurrences_app, length_app, IH.
  f_equal. by destruct ev.
Qed.

Lemma presentations_app tr1 tr2 :
  presentations (tr1 ++ tr2) = presentations tr1 ++ presentations tr2.
Proof.
  induction tr1 as [|ev tr1 IH]; [reflexivity|].
  destruct ev; cbn [presentations app]; by rewrite IH.
Qed.

Lemma cycle_prefix_quiet rc :
  sleeps (announce a rc ++ [(source_call a e rc).1]) = [] /\
  presentations (announce a rc ++ [(source_call a e rc).1]) = [] /\
  forall x, sleeps [(handler x).1] = [] /\ presentations [(handler x).1] = [].
Proof.
  unfold announce, source_call, handler.
  destruct (negb (no_print_time a)), (given (mock a)); cbn; repeat split;
    by repeat case_match.
Qed.

(** X12. No cycle sleeps: the only sleeps of a run are the pauses between its
    cycles. Each lasts [interval] seconds when that is positive and one
    second otherwise, so the loop never asks for a sleep of zero or of a
    negative duration. *)
Theorem sleeps_are_pauses fs :
  Forall (fun secs => secs = (if (0 <? interval a)%Z then interval a else 1) /\ 1 <= secs)
    (sleeps (trace (scheduler_loop a e fields fs))).
Proof.
  unfold scheduler_loop.
  apply (loop_trace_ind (fun _ tr _ =>
           Forall (fun secs => secs = (if (0 <? interval a)%Z then interval a else 1) /\
                               1 <= secs) (sleeps tr))).
  - intros _. constructor.
  - intros rc fs0.
    assert (Hnone : sleeps (cycle a e fields rc fs0).1.1 = []).
    { apply length_zero_iff_nil. rewrite sleeps_length.
      apply cycle_fetches_once. }
    rewrite Hnone. constructor.
  - intros _. unfold pause, pause_secs.
    destruct (0 <? interval a)%Z eqn:Hi; cbn [sleeps].
    + apply Z.ltb_lt in Hi. constructor; [split; [reflexivity | lia] | constructor].
    + constructor; [split; [reflexivity | lia] | constructor].
  - intros fs1 tr1 fs2 tr2 fs3 H1 H2. rewrite sleeps_app. by apply Forall_app.
Qed.

(** X13. Whatever a run presents is [print_selected] of a record that has
    exactly the twelve canonical keys and a version that matches its ip;
    with a manual ip configured, the ip of every presented record is that
    one, whatever the data source returned. *)
Theorem presented_records_are_canonical fs :
  Forall (fun lines =>
            exists d, lines = print_selected d fields /\
              dom d = canonical_keys /\ version_matches_ip d /\
              (given (manual_ip a) = true ->
               d !! "ip" = Some (JStr (default "" (manual_ip a)))))
    (presentations (trace (scheduler_loop a e fields fs))).
Proof.
  unfold scheduler_loop.
  set (good := fun lines : list (string * json) =>
            exists d, lines = print_selected d fields /\
              dom d = canonical_keys /\ version_matches_ip d /\
              (given (manual_ip a) = true ->
               d !! "ip" = Some (JStr (default "" (manual_ip a))))).
  assert (Hgood : forall j d, normalize_raw j = Ok d ->
            good (print_selected (apply_manual_ip (manual_ip a) d) fields)).
  { intros j d Hn. exists (apply_manual_ip (manual_ip a) d).
    destruct j; try discriminate. cbn [normalize_raw] in Hn.
    split; [reflexivity|].
    split; [by apply apply_manual_ip_dom, (normalize_data_dom m)|].
    split; [by apply (override_version_matches m)|].
    unfold given, apply_manual_ip. destruct (manual_ip a) as [s|]; [|discriminate].
    intros ->. cbn [default from_option id].
    by rewrite lookup_insert_ne, lookup_insert_eq. }
  apply (loop_trace_ind (fun _ tr _ => Forall good (presentations tr))).
  - intros _. constructor.
  - intros rc fs0. destruct (cycle_prefix_quiet rc) as (_ & Hp & Hh).
    destruct (cycle_cases a e fields rc fs0)
      as [(x & _ & ->) | [(j & x & _ & _ & ->) | [(j & d & _ & Hn & _ & ->)
         | [(j & d & _ & Hn & _ & _ & ->) | [(j & d & fs' & x & _ & Hn & _ & _ & _ & ->)
         | [(j & d & fs' & _ & Hn & _ & _ & _ & _ & ->)
         | (j & d & fs' & _ & Hn & _ & _ & _ & _ & ->)]]]]]];
      cbn [fst snd]; rewrite app_assoc, presentations_app, Hp;
      try (destruct (handler_is_error x) as [msg ->]); cbn [app presentations].
    + constructor.
    + constructor.
    + constructor.
    + repeat constructor. by apply (Hgood j).
    + repeat constructor. by apply (Hgood j).
    + repeat constructor. by apply (Hgood j).
    + repeat constructor. by apply (Hgood j).
  - intros _. constructor.
  - intros fs1 tr1 fs2 tr2 fs3 H1 H2. rewrite presentations_app. by apply Forall_app.
Qed.

(** X9. In mock mode the loop stops at the first cycle that finds no mock
    file, or one that the JSON parser rejects: if the file is read in the
    cycles before cycle [k], and in cycle [k] is missing or raises
    [json.JSONDecodeError], the run is broken with [run_count = k] after
    exactly [k + 1] reads, whatever count was configured beyond [k]. The
    history file, if any, is not in a missing directory, and the platform
    takes the pauses before cycle [k]. *)
Theorem mock_stops_at_first_failure fs k p :
  mock a = Some p -> p <> "" -> 0 <= k < count a ->
  history_reachable a fs ->
  (0 < k -> (if (0 <? interval a)%Z then interval a else 1) <= sleep_max e) ->
  (forall i, 0 <= i < k -> exists j, read_mock e p i = MockJson j) ->
  read_mock e p k = MockMissing \/ read_mock e p k = MockInvalid ->
  state (scheduler_loop a e fields fs) = Aborted /\
  runs (scheduler_loop a e fields fs) = k /\
  occurrences is_fetch (trace (scheduler_loop a e fields fs)) = S (Z.to_nat k).
Proof.
  intros Hmock Hp Hk Hreach Hsleep Hok Hbad. unfold scheduler_loop.
  assert (Hgiven : given (mock a) = true).
  { rewrite Hmock. cbn [given]. apply negb_true_iff. by apply String.eqb_neq. }
  assert (Hsrc : forall i, (source_call a e i).2 = load_mock e i p).
  { intros i. unfold source_call. by rewrite Hgiven, Hmock. }
  destruct (loop_reaches a e fields (history_reachable a) k (Z.to_nat (k - 0)) 0 fs eq_refl)
    as (before & fs_k & _ & _ & Hs & Hr & _ & _); [lia | | exact Hreach | |].
  { intros Hpos. unfold pause_returns, pause_secs. by apply Z.leb_le, Hsleep. }
  { intros i fs' Hi Hinv. destruct (Hok i Hi) as [j Hj].
    split; [|by apply cycle_keeps_reachable].
    apply (cycle_source_ok_continues a e fields i fs' j); [|done].
    rewrite Hsrc. unfold load_mock. by rewrite Hj. }
  assert (Hx : exists x, (source_call a e k).2 = Raise x /\ (handler x).2 = Break).
  { rewrite Hsrc. unfold load_mock. destruct Hbad as [-> | ->]; eauto. }
  destruct Hx as (x & Hx & Hb).
  pose proof (cycle_source_raises a e fields k fs_k x Hx) as Hc. rewrite Hb in Hc.
  rewrite (loop_break a e fields k fs_k _ _ ltac:(lia) Hc) in Hs, Hr.
  cbn [state runs] in Hs, Hr.
  split; [exact Hs|]. split; [exact Hr|].
  destruct (loop_accounting_from (Z.to_nat (count a - 0)) 0 fs eq_refl) as (_ & Hf & _).
  rewrite Hf, Hs, Hr, Z.sub_0_r. cbn [aborted]. lia.
Qed.

End SchedulerMore.


Lemma mock_stops_at_first_failure_witness :
  state (scheduler_loop five_mock_runs mock_vanishes ["ip"] ∅) = Aborted /\
  runs (scheduler_loop five_mock_runs mock_vanishes ["ip"] ∅) = 2 /\
  occurrences is_fetch (trace (scheduler_loop five_mock_runs mock_vanishes ["ip"] ∅)) =
    3%nat.
Proof.
  apply (mock_stops_at_first_failure five_mock_runs mock_vanishes ["ip"] ∅ 2
           "sample_mock.json").
  - reflexivity.
  - discriminate.
  - cbn. lia.
  - discriminate.
  - intros _. cbn. lia.
  - intros i Hi. exists reply. cbn.
    destruct (Z.ltb_spec i 2); [reflexivity | lia].
  - left. reflexivity.
Defined.

(* ===================================================================== *)
(** ** Properties of the field list of the command line                   *)
(* ===================================================================== *)

Section CliFacts.

Implicit Types (p s r w : list ascii) (ws : list (list ascii)).

Lemma drop_prefix_spec p s r : drop_prefix p s = Some r <-> s = p ++ r.
Proof.
  revert s. induction p as [|a p IH]; intros s; cbn [drop_prefix app].
  - split; [by intros [= ->] | by intros ->].
  - destruct s as [|b s]; [split; discriminate|].
    destruct (Ascii.eqb_spec a b) as [<- | Hne].
    + rewrite IH. split; [by intros -> | by intros [= ->]].
    + split; [discriminate | intros [= Hab _]; done].
Qed.

Lemma drop_first_some ws s r :
  drop_first ws s = Some r -> exists w, In w ws /\ s = w ++ r.
Proof.
  induction ws as [|w ws IH]; cbn [drop_first]; [discriminate|].
  destruct (drop_prefix w s) as [r'|] eqn:Hw.
  - intros [= ->]. exists w. split; [by left | by apply drop_prefix_spec].
  - intros H. destruct (IH H) as (w' & Hin & Hs). exists w'. split; [by right | done].
Qed.

Lemma drop_first_none ws s w r :
  drop_first ws s = None -> In w ws -> s <> w ++ r.
Proof.
  induction ws as [|w' ws IH]; cbn [drop_first]; [by intros _ []|].
  destruct (drop_prefix w' s) as [r'|] eqn:Hw; [discriminate|].
  intros Hnone [-> | Hin] Hs.
  - apply drop_prefix_spec in Hs. congruence.
  - by apply (IH Hnone Hin).
Qed.

(** What is left is the end of the input. *)
Lemma lstrip_with_suffix ws n s : exists pre, s = pre ++ lstrip_with ws n s.
Proof.
  revert s. induction n as [|n IH]; intros s; cbn [lstrip_with]; [by exists []|].
  destruct (drop_first ws s) as [r|] eqn:Hd; [|by exists []].
  destruct (drop_first_some _ _ _ Hd) as (w & _ & ->).
  destruct (IH r) as [pre Hpre]. exists (w ++ pre). by rewrite <- app_assoc, <- Hpre.
Qed.

(** With enough fuel nothing more can be dropped from what is left. *)
Lemma lstrip_with_done ws n s :
  Forall (fun w => w <> []) ws -> (length s <= n)%nat ->
  drop_first ws (lstrip_with ws n s) = None.
Proof.
  intros Hws. revert s. induction n as [|n IH]; intros s Hlen; cbn [lstrip_with].
  - destruct s; [|cbn in Hlen; lia].
    destruct (drop_first ws []) as [r|] eqn:Hd; [|reflexivity].
    destruct (drop_first_some _ _ _ Hd) as (w & Hin & Hs).
    rewrite Forall_forall in Hws. apply list_elem_of_In, Hws in Hin.
    destruct w; [done | discriminate].
  - destruct (drop_first ws s) as [r|] eqn:Hd; [|exact Hd].
    apply IH. destruct (drop_first_some _ _ _ Hd) as (w & Hin & ->).
    rewrite Forall_forall in Hws. apply list_elem_of_In, Hws in Hin.
    rewrite length_app in Hlen. destruct w; [done | cbn in Hlen; lia].
Qed.

Lemma lstrip_with_fixed ws n s :
  drop_first ws s = None -> lstrip_with ws n s = s.
Proof. intros H. destruct n; cbn [lstrip_with]; [reflexivity | by rewrite H]. Qed.

Lemma whitespace_nonempty :
  Forall (fun w => w <> []) whitespace /\
  Forall (fun w => w <> []) (map (@rev ascii) whitespace).
Proof. split; repeat constructor; discriminate. Qed.

(** The stripped bytes sit inside the input, with nothing white at either
    end. *)
Lemma strip_bytes_spec s :
  (exists pre post, s = pre ++ strip_bytes s ++ post) /\
  drop_first whitespace (strip_bytes s) = None /\
  drop_first (map (@rev ascii) whitespace) (rev (strip_bytes s)) = None.
Proof.
  destruct whitespace_nonempty as [Hw Hw'].
  unfold strip_bytes, rstrip_bytes, lstrip_bytes.
  set (t := lstrip_with whitespace (length s) s).
  assert (Ht : drop_first whitespace t = None) by (by apply lstrip_with_done).
  destruct (lstrip_with_suffix whitespace (length s) s) as [pre Hpre]. fold t in Hpre.
  set (u' := lstrip_with (map (@rev ascii) whitespace) (length t) (rev t)).
  assert (Hu' : drop_first (map (@rev ascii) whitespace) u' = None)
    by (apply lstrip_with_done; [done | by rewrite length_rev]).
  destruct (lstrip_with_suffix (map (@rev ascii) whitespace) (length t) (rev t))
    as [post' Hpost]. fold u' in Hpost.
  assert (Htu : t = rev u' ++ rev post').
  { rewrite <- (rev_involutive t), Hpost, rev_app_distr. reflexivity. }
  split; [|split].
  - exists pre, (rev post'). by rewrite <- Htu.
  - destruct (drop_first whitespace (rev u')) as [r|] eqn:Hd; [|reflexivity].
    destruct (drop_first_some _ _ _ Hd) as (w & Hin & Hr).
    exfalso. apply (drop_first_none _ _ w (r ++ rev post') Ht Hin).
    by rewrite Htu, Hr, <- app_assoc.
  - by rewrite rev_involutive.
Qed.

Lemma strip_bytes_idempotent s : strip_bytes (strip_bytes s) = strip_bytes s.
Proof.
  destruct (strip_bytes_spec s) as (_ & Hl & Hr).
  unfold strip_bytes at 1. unfold rstrip_bytes, lstrip_bytes.
  rewrite (lstrip_with_fixed _ _ _ Hl), (lstrip_with_fixed _ _ _ Hr).
  apply rev_involutive.
Qed.

Lemma strip_eq (s : string) :
  strip s = string_of_list_ascii (strip_bytes (list_ascii_of_string s)).
Proof. reflexivity. Qed.

Lemma strip_idempotent (s : string) : strip (strip s) = strip s.
Proof.
  rewrite !strip_eq, list_ascii_of_string_of_list_ascii.
  by rewrite strip_bytes_idempotent.
Qed.

Lemma strip_subset (s : string) c :
  In c (list_ascii_of_string (strip s)) -> In c (list_ascii_of_string s).
Proof.
  rewrite strip_eq, list_ascii_of_string_of_list_ascii.
  destruct (strip_bytes_spec (list_ascii_of_string s)) as ((pre & post & Hs) & _).
  intros Hin. rewrite Hs. apply in_or_app. right. apply in_or_app. by left.
Qed.

(** No piece of a split holds the separator. *)
Lemma split_on_no_sep sep (s : string) :
  Forall (fun piece => ~ In sep (list_ascii_of_string piece)) (split_on sep s).
Proof.
  induction s as [|c s IH]; cbn [split_on].
  - repeat constructor. intros [].
  - destruct (Ascii.eqb_spec c sep) as [-> | Hne].
    + constructor; [intros [] | exact IH].
    + destruct (split_on sep s) as [|h t]; [repeat constructor; intros [? | []]; done|].
      inversion IH as [|? ? Hh Ht]; subst. constructor; [|exact Ht].
      cbn [list_ascii_of_string In]. intros [? | ?]; done.
Qed.

Lemma split_on_piece sep (piece : string) :
  ~ In sep (list_ascii_of_string piece) -> split_on sep piece = [piece].
Proof.
  induction piece as [|c piece IH]; cbn [split_on list_ascii_of_string In];
    [reflexivity|].
  intros Hno. destruct (Ascii.eqb_spec c sep) as [-> | Hne]; [tauto|].
  rewrite IH by tauto. reflexivity.
Qed.

Lemma split_on_cons sep (piece rest : string) :
  ~ In sep (list_ascii_of_string piece) ->
  split_on sep (piece +:+ String sep rest) = piece :: split_on sep rest.
Proof.
  induction piece as [|c piece IH].
  - intros _. change ("" +:+ String sep rest) with (String sep rest).
    cbn [split_on]. by rewrite Ascii.eqb_refl.
  - cbn [list_ascii_of_string In]. intros Hno.
    change (String c piece +:+ String sep rest)
      with (String c (piece +:+ String sep rest)).
    cbn [split_on]. destruct (Ascii.eqb_spec c sep) as [-> | Hne]; [tauto|].
    rewrite IH by tauto. reflexivity.
Qed.

(** Splitting what was joined gives the pieces back. *)
Lemma split_on_join sep (pieces : list string) :
  pieces <> [] ->
  Forall (fun piece => ~ In sep (list_ascii_of_string piece)) pieces ->
  split_on sep (join_with sep pieces) = pieces.
Proof.
  induction pieces as [|p rest IH]; [done|]. intros _ Hall.
  inversion Hall as [|? ? Hp Hrest]; subst.
  destruct rest as [|q rest]; [by apply split_on_piece|].
  change (join_with sep (p :: q :: rest))
    with (p +:+ String sep (join_with sep (q :: rest))).
  rewrite split_on_cons by done. f_equal. by apply IH.
Qed.

(** X14. Every field that [main] works with is clean: not empty, without a
    comma, and with no white space left at either end. *)
Theorem parse_fields_clean (arg : string) :
  Forall clean (parse_fields arg).
Proof.
  unfold parse_fields. apply Forall_forall. intros f Hf.
  apply list_elem_of_In, filter_In in Hf as [Hin Hne].
  apply in_map_iff in Hin as (piece & <- & Hpiece).
  split; [|split].
  - intros Hempty. rewrite Hempty in Hne. discriminate.
  - intros Hcomma. apply strip_subset in Hcomma.
    pose proof (split_on_no_sep ","%char arg) as Hall.
    rewrite Forall_forall in Hall. apply (Hall piece); [by apply list_elem_of_In | done].
  - apply strip_idempotent.
Qed.

(** X15. Parsing is the inverse of joining on clean names: the fields given as
    [f1,f2,...] on the command line are the fields that [main] works with,
    in the same order and with their repetitions. *)
Theorem parse_fields_join (fields : list string) :
  Forall clean fields ->
  parse_fields (join_with "," fields) = fields.
Proof.
  intros Hclean. destruct fields as [|f rest]; [reflexivity|].
  unfold parse_fields. rewrite split_on_join; [|done|].
  - assert (Hstrip : map strip (f :: rest) = f :: rest).
    { rewrite <- (map_id (f :: rest)) at 2. apply map_ext_in. intros g Hg.
      rewrite Forall_forall in Hclean. by apply (Hclean g), list_elem_of_In. }
    rewrite Hstrip. apply forallb_filter_id, forallb_forall. intros g Hg.
    rewrite Forall_forall in Hclean.
    destruct (Hclean g ltac:(by apply list_elem_of_In)) as [Hne _].
    apply negb_true_iff. by apply String.eqb_neq.
  - eapply Forall_impl; [exact Hclean|]. by intros g (_ & Hg & _).
Qed.

Lemma parse_fields_join_witness :
  parse_fields (join_with "," ["isp"; "city"; "isp"]) = ["isp"; "city"; "isp"].
Proof.
  apply (parse_fields_join ["isp"; "city"; "isp"]).
  repeat constructor; try discriminate; try reflexivity;
    cbn; intros H; repeat (destruct H as [H | H]; [discriminate|]); exact H.
Defined.


Example parse_fields_samples :
  parse_fields "ip,version,city,region,country,isp,asn" =
    ["ip"; "version"; "city"; "region"; "country"; "isp"; "asn"] /\
  parse_fields " ip , ,city,, version " = ["ip"; "city"; "version"] /\
  parse_fields " ip　, " = ["ip"] /\
  parse_fields " , ," = [] /\
  parse_fields "" = [].
Proof. repeat split; by_vm. Qed.

End CliFacts.

(* ===================================================================== *)
(** ** Properties of the one-shot tool                                    *)
(* ===================================================================== *)

Section LegacyFacts.

Import Legacy.

Implicit Types (resp : http_outcome) (d : gmap string json) (fs : gmap string snapshot_node).

Lemma py_in_has_in (x : string) (v : json) :
  (exists c, py_in x v = Ok c) <-> has_in v = true.
Proof.
  destruct v; cbn [py_in has_in]; split; intros H; try discriminate;
    try (destruct H; discriminate); eauto.
Qed.

(** On a dict whose ip has an [in], [get_ip_info] prints the summary. *)
Lemma get_ip_info_dict status d :
  has_in (py_get d "ip") = true ->
  exists colon,
    py_in ":" (py_get d "ip") = Ok colon /\
    get_ip_info (HttpResponse status (Some (JObj d))) =
    Summary {| s_ip := py_get d "ip";
               s_version := if colon then "IPv6" else "IPv4";
               s_city := py_get d "city"; s_region := py_get d "region";
               s_country := py_get d "country_name";
               s_country_code := py_get d "country";
               s_latitude := py_get d "latitude"; s_longitude := py_get d "longitude";
               s_timezone := py_get d "timezone"; s_isp := py_get d "org";
               s_asn := py_get d "asn" |}.
Proof.
  intros Hin. destruct (proj2 (py_in_has_in ":" _) Hin) as [colon Hc]. exists colon.
  split; [exact Hc|]. unfold get_ip_info. cbn [response_json bind data_get].
  rewrite Hc. reflexivity.
Qed.

Lemma get_ip_info_has_in status d r :
  get_ip_info (HttpResponse status (Some (JObj d))) = Summary r ->
  has_in (py_get d "ip") = true.
Proof.
  intros Hr. apply (py_in_has_in ":"). unfold get_ip_info in Hr.
  cbn [response_json bind data_get] in Hr.
  destruct (py_in ":" (py_get d "ip")) as [c|x]; [eauto | discriminate].
Qed.



(** X18. Where the one-shot tool prints a summary of a record with a true ip,
    the advanced tool normalizes the same record, with the same ip,
    version, city and time zone, and with the same value in every other
    field for which the one-shot tool had a true value. *)
Theorem normalize_data_agrees_with_summary status d r :
  get_ip_info (HttpResponse status (Some (JObj d))) = Summary r ->
  truthy (py_get d "ip") = true ->
  exists n, normalize_data d = Ok n /\
    n !! "ip" = Some (s_ip r) /\
    n !! "version" = Some (JStr (s_version r)) /\
    n !! "city" = Some (s_city r) /\
    n !! "timezone" = Some (s_timezone r) /\
    (truthy (s_region r) = true -> n !! "region" = Some (s_region r)) /\
    (truthy (s_country r) = true -> n !! "country" = Some (s_country r)) /\
    (truthy (s_country_code r) = true -> n !! "country_code" = Some (s_country_code r)) /\
    (truthy (s_latitude r) = true -> n !! "latitude" = Some (s_latitude r)) /\
    (truthy (s_longitude r) = true -> n !! "longitude" = Some (s_longitude r)) /\
    (truthy (s_isp r) = true -> n !! "isp" = Some (s_isp r)) /\
    (truthy (s_asn r) = true -> n !! "asn" = Some (s_asn r)).
Proof.
  intros Hr Hip.
  assert (Hin : has_in (py_get d "ip") = true)
    by (by apply (get_ip_info_has_in status d r)).
  destruct (get_ip_info_dict status d Hin) as (colon & Hc & Hs).
  rewrite Hs in Hr. injection Hr as <-. cbn [s_ip s_version s_city s_timezone s_region
    s_country s_country_code s_latitude s_longitude s_isp s_asn].
  assert (Hres : resolved_ip d = py_get d "ip").
  { unfold resolved_ip. rewrite py_or_assoc. by rewrite Hip. }
  assert (Hv : ip_version (resolved_ip d) = Ok (JStr (if colon then "IPv6" else "IPv4"))).
  { rewrite Hres. unfold ip_version. rewrite Hip, Hc. reflexivity. }
  destruct (normalize_data_fields d _ Hv) as (n & Hn & _ & Hver & Hf).
  assert (Hfirst : forall f k ks, In (f, k :: ks) candidate_table ->
            truthy (py_get d k) = true -> n !! f = Some (py_get d k)).
  { intros f k ks Hin' Hk. rewrite (Hf _ _ Hin').
    f_equal. apply or_chain_first_truthy. cbn [first_truthy]. by rewrite Hk. }
  exists n. split; [exact Hn|].
  split; [by apply (Hfirst "ip" "ip" ["query"; "ip_address"]); [cbn; tauto|]|].
  split; [exact Hver|].
  split; [by rewrite (Hf "city" ["city"]) by (cbn; tauto)|].
  split; [by rewrite (Hf "timezone" ["timezone"]) by (cbn; tauto)|].
  repeat split; intros Ht.
  - apply (Hfirst "region" "region" ["region_name"]); [cbn; tauto | done].
  - apply (Hfirst "country" "country_name" ["country"]); [cbn; tauto | done].
  - apply (Hfirst "country_code" "country" ["country_code"]); [cbn; tauto | done].
  - apply (Hfirst "latitude" "latitude" ["lat"]); [cbn; tauto | done].
  - apply (Hfirst "longitude" "longitude" ["lon"; "lng"]); [cbn; tauto | done].
  - apply (Hfirst "isp" "org" ["isp"]); [cbn; tauto | done].
  - apply (Hfirst "asn" "asn" ["as"]); [cbn; tauto | done].
Qed.

Lemma normalize_data_agrees_with_summary_witness :
  exists r n,
    get_ip_info (HttpResponse 200 (Some (JObj ip_city))) = Summary r /\
    normalize_data ip_city = Ok n /\
    n !! "ip" = Some (s_ip r) /\
    n !! "version" = Some (JStr (s_version r)).
Proof.
  destruct (get_ip_info_dict 200 ip_city) as (colon & _ & Hs); [reflexivity|].
  destruct (normalize_data_agrees_with_summary 200 ip_city _ Hs)
    as (n & Hn & H1 & H2 & _); [reflexivity|].
  eexists _, n. split; [exact Hs|]. split; [exact Hn|]. split; [exact H1 | exact H2].
Defined.



End LegacyFacts.
